(** * muni_scraper: a shallow embedding of [muniScraper] and [Database]

    The development follows [src/muni_scraper.py]:
    - [Geo]: the perimeter of San Francisco, its bounding box, the membership
      test [in_sf] and the rejection sampler [sample_sf];
    - [Duration]: [parse_times], with the two regular expressions it searches;
    - [Trip]: the shared frame [timesdf], [get_traveltimes], [get_times] and
      the collection cycle [run];
    - [Db]: [Database.record], its buffer, the batches it commits and the
      rows that [executemany] cannot insert;
    - [Scenarios]: concrete instances, pages and rows;
    - [Polling]: [get_cn_text] and the wait for a duration to show;
    - [Schema]: the commands that [Database.__init__] builds;
    - [Samples]: further texts, pages and rows;
    - [GeoFacts], [DurationFacts], [DbFacts], [TripFacts]: the properties;
    - [SamplerFacts], [ParseFacts], [CycleFacts], [RecorderFacts],
      [PollingFacts]: further properties.

    Python floats are modelled by rationals ([Q]): comparisons are exact and
    rounding is not modelled.  Loops that Python runs without a bound consume
    a finite supply of observations (random draws, page loads) and answer
    [Diverge] when the supply is exhausted before the loop exits. *)

From Stdlib Require Import List ZArith QArith Bool Ascii String Lia Lra Psatz.
Import ListNotations.

Set Implicit Arguments.

(** ** Outcomes of a call: a value, a raised exception, or no answer yet *)

Inductive exn : Type :=
| AttributeError    (* attribute access on [None], here [None.group()] *)
| ValueError        (* [int] of a text that is not a number *)
| IndexError        (* [data[idx]] past the end *)
| GeocoderTimedOut  (* raised by [geolocator.reverse] *)
| WebDriverException  (* raised by a selenium call *)
| ProgrammingError    (* sqlite3: a tuple does not fit the statement *)
| OverflowError.      (* sqlite3: an integer does not fit in 64 bits *)

Inductive outcome (A : Type) : Type :=
| Ret (a : A)
| Raise (e : exn)
| Diverge.

Arguments Ret {A} a.
Arguments Raise {A} e.
Arguments Diverge {A}.

Definition obind {A B} (m : outcome A) (k : A -> outcome B) : outcome B :=
  match m with
  | Ret a => k a
  | Raise e => Raise e
  | Diverge => Diverge
  end.

(** ** The perimeter and the sampler *)

Module Geo.

Open Scope Q_scope.

(** A coordinate is a [(latitude, longitude)] tuple. *)
Definition point : Type := (Q * Q)%type.

(** The source writes coordinates with six decimals: [deg 37708266] is
    [37.708266]. *)
Definition deg (micro : Z) : Q := micro # 1000000.

Definition sf_perim : list point :=
  [
    (deg 37708266, deg (-122393657)); (deg 37708440, deg (-122485511)); (deg 37724103, deg (-122485019));
    (deg 37726958, deg (-122483816)); (deg 37729338, deg (-122485621)); (deg 37730333, deg (-122489504));
    (deg 37728905, deg (-122491802)); (deg 37729554, deg (-122493661)); (deg 37729121, deg (-122496561));
    (deg 37731501, deg (-122498748)); (deg 37725358, deg (-122503452)); (deg 37727045, deg (-122506133));
    (deg 37732658, deg (-122507427)); (deg 37735427, deg (-122506825)); (deg 37775045, deg (-122511305));
    (deg 37778698, deg (-122513720)); (deg 37779853, deg (-122509438)); (deg 37780845, deg (-122509633));
    (deg 37781737, deg (-122493314)); (deg 37787528, deg (-122493787)); (deg 37787908, deg (-122491871));
    (deg 37787112, deg (-122491174)); (deg 37788406, deg (-122489796)); (deg 37788844, deg (-122489989));
    (deg 37790350, deg (-122485654)); (deg 37810905, deg (-122477056)); (deg 37809361, deg (-122476045));
    (deg 37808615, deg (-122471663)); (deg 37803555, deg (-122459563)); (deg 37804439, deg (-122453015));
    (deg 37805638, deg (-122453891)); (deg 37806730, deg (-122447791)); (deg 37805212, deg (-122447251));
    (deg 37805851, deg (-122442263)); (deg 37806650, deg (-122442499)); (deg 37807502, deg (-122435893));
    (deg 37806277, deg (-122435657)); (deg 37804999, deg (-122433769)); (deg 37806064, deg (-122425545));
    (deg 37807901, deg (-122421703)); (deg 37808061, deg (-122417793)); (deg 37808301, deg (-122415838));
    (deg 37809073, deg (-122415939)); (deg 37808860, deg (-122412669)); (deg 37807768, deg (-122407479));
    (deg 37806384, deg (-122404715)); (deg 37803774, deg (-122401547)); (deg 37792636, deg (-122390954));
    (deg 37791064, deg (-122389047)); (deg 37789640, deg (-122388360)); (deg 37787995, deg (-122387738));
    (deg 37778371, deg (-122387480)); (deg 37777149, deg (-122390399)); (deg 37776547, deg (-122389927));
    (deg 37776615, deg (-122387459)); (deg 37771519, deg (-122386676)); (deg 37768839, deg (-122385056));
    (deg 37765330, deg (-122386579)); (deg 37763624, deg (-122387109)); (deg 37763124, deg (-122386537));
    (deg 37763081, deg (-122385244)); (deg 37762142, deg (-122385285)); (deg 37761762, deg (-122383279));
    (deg 37759570, deg (-122381891)); (deg 37759547, deg (-122381410)); (deg 37758147, deg (-122381303));
    (deg 37757705, deg (-122381607)); (deg 37755286, deg (-122381178)); (deg 37755058, deg (-122384233));
    (deg 37754531, deg (-122384091)); (deg 37754464, deg (-122383106)); (deg 37754479, deg (-122383072));
    (deg 37753239, deg (-122383082)); (deg 37753120, deg (-122384104)); (deg 37748432, deg (-122382347));
    (deg 37748126, deg (-122386309)); (deg 37747807, deg (-122390386)); (deg 37748806, deg (-122392968));
    (deg 37747466, deg (-122393263)); (deg 37746633, deg (-122390767)); (deg 37746935, deg (-122375659));
    (deg 37740055, deg (-122367982)); (deg 37739688, deg (-122374093)); (deg 37732913, deg (-122375795));
    (deg 37732139, deg (-122374232)); (deg 37734052, deg (-122372238)); (deg 37731735, deg (-122369059));
    (deg 37731634, deg (-122365114)); (deg 37729890, deg (-122362227)); (deg 37728079, deg (-122362141));
    (deg 37728514, deg (-122357474)); (deg 37726166, deg (-122357899)); (deg 37725731, deg (-122365537));
    (deg 37723636, deg (-122362980)); (deg 37722097, deg (-122364197)); (deg 37719901, deg (-122363036));
    (deg 37716778, deg (-122364195)); (deg 37724967, deg (-122377806)); (deg 37722607, deg (-122381104));
    (deg 37724809, deg (-122387145)); (deg 37721685, deg (-122383194)); (deg 37720367, deg (-122383779));
    (deg 37716056, deg (-122376343)); (deg 37709382, deg (-122381688)); (deg 37710458, deg (-122390474));
    (deg 37708142, deg (-122393783))
  ].

(** [np.array(l).min()] and [.max()]; numpy raises [ValueError] on an empty
    array. *)
Fixpoint amin_from (x : Q) (l : list Q) : Q :=
  match l with
  | [] => x
  | y :: l' => amin_from (if Qle_bool y x then y else x) l'
  end.

Fixpoint amax_from (x : Q) (l : list Q) : Q :=
  match l with
  | [] => x
  | y :: l' => amax_from (if Qle_bool x y then y else x) l'
  end.

Definition amin (l : list Q) : outcome Q :=
  match l with
  | [] => Raise ValueError
  | x :: l' => Ret (amin_from x l')
  end.

Definition amax (l : list Q) : outcome Q :=
  match l with
  | [] => Raise ValueError
  | x :: l' => Ret (amax_from x l')
  end.

(** The views of the perimeter that [__init__] stores on the instance. *)
Record bounds : Type := mkBounds {
  ylim : Q * Q;   (* (ymin, ymax): the latitudes *)
  xlim : Q * Q    (* (xmin, xmax): the longitudes *)
}.

Definition lats (perim : list point) : list Q := map fst perim.
Definition lons (perim : list point) : list Q := map snd perim.

Definition init_bounds (perim : list point) : outcome bounds :=
  obind (amin (lats perim)) (fun ymin =>
  obind (amax (lats perim)) (fun ymax =>
  obind (amin (lons perim)) (fun xmin =>
  obind (amax (lons perim)) (fun xmax =>
  Ret (mkBounds (ymin, ymax) (xmin, xmax)))))).

Definition ymin (b : bounds) : Q := fst (ylim b).
Definition ymax (b : bounds) : Q := snd (ylim b).
Definition xmin (b : bounds) : Q := fst (xlim b).
Definition xmax (b : bounds) : Q := snd (xlim b).

(** *** The membership test of the path *)

(** Modelled from the spec: [Path.contains_point] belongs to matplotlib and is
    not part of the sources; the spec asks for "a standard point-in-polygon
    algorithm (ray casting or equivalent winding test) over the ordered vertex
    sequence".  The model is the even-odd ray casting over the closed vertex
    sequence, in the division-free form: the first component of a tuple is the
    abscissa of the path, the second its ordinate, and the ray leaves the test
    point [t] towards larger abscissas.  [above t v] tells whether the vertex
    [v] is at or above the ordinate of [t]. *)
Definition above (t v : point) : bool := Qle_bool (snd t) (snd v).

(** Modelled from the spec: the ray meets the edge from [v0] to [v1] when the
    two ends are on opposite sides of it and the edge passes at or ahead of
    the test point. *)
Definition edge_crossed (t v0 v1 : point) : bool :=
  if Bool.eqb (above t v0) (above t v1) then false
  else Bool.eqb
         (Qle_bool ((fst v1 - fst t) * (snd v0 - snd v1))
                   ((snd v1 - snd t) * (fst v0 - fst v1)))
         (above t v1).

(** Modelled from the spec: the parity of the edges met along the path from
    [prev] through [rest] and back to [start]. *)
Fixpoint crossings (t start prev : point) (rest : list point) : bool :=
  match rest with
  | [] => edge_crossed t prev start
  | v :: rest' => xorb (edge_crossed t prev v) (crossings t start v rest')
  end.

(** Modelled from the spec: [x] lies between [a] and [b], in either order. *)
Definition between (a x b : Q) : bool :=
  (Qle_bool a x && Qle_bool x b) || (Qle_bool b x && Qle_bool x a).

(** Modelled from the spec: [t] lies on the edge from [v0] to [v1], the two
    ends included: it is on the line through them and between them. *)
Definition on_edge (t v0 v1 : point) : bool :=
  Qeq_bool ((fst v1 - fst v0) * (snd t - snd v0)) ((snd v1 - snd v0) * (fst t - fst v0))
  && between (fst v0) (fst t) (fst v1)
  && between (snd v0) (snd t) (snd v1).

(** Modelled from the spec: [t] lies on an edge of the path from [prev]
    through [rest] and back to [start]. *)
Fixpoint on_path (t start prev : point) (rest : list point) : bool :=
  match rest with
  | [] => on_edge t prev start
  | v :: rest' => on_edge t prev v || on_path t start v rest'
  end.

(** Modelled from the spec: [Path(perim).contains_point(t)], "true iff the
    point lies strictly inside the polygon".  A path of fewer than three
    vertices encloses nothing; a point on an edge is not strictly inside; any
    other point is inside when the ray meets an odd number of edges. *)
Definition point_in_path (perim : list point) (t : point) : bool :=
  match perim with
  | v0 :: ((_ :: _ :: _) as rest) =>
      negb (on_path t v0 v0 rest) && crossings t v0 v0 rest
  | _ => false
  end.

Section Sampler.

(** [self.sfPath.contains_point]: the path is built once, from [sf_perim]. *)
Variable contains_point : point -> bool.
Variable self : bounds.

(** [x == 1] for a Python boolean [x]. *)
Definition eq_one (b : bool) : bool := Z.eqb (Z.b2z b) 1.

Definition in_sf (tup : point) : bool := eq_one (contains_point tup).

(** [random.uniform(a, b)] is [a + (b - a) * random()]; [u] is the value
    [random()] returned. *)
Definition uniform (lim : Q * Q) (u : Q) : Q := fst lim + (snd lim - fst lim) * u.

(** [sample_sf]: each turn of the loop takes two values of the generator.
    The result carries the values that are left. *)
Fixpoint sample_sf (rnd : list Q) : outcome (point * list Q) :=
  match rnd with
  | u1 :: u2 :: rnd' =>
      let sfpoint := (uniform (ylim self) u1, uniform (xlim self) u2) in
      let insf := contains_point sfpoint in
      if negb (eq_one insf) then sample_sf rnd' else Ret (sfpoint, rnd')
  | _ => Diverge
  end.

(** The candidates that the values [rnd] make, two values each. *)
Fixpoint candidates (rnd : list Q) : list point :=
  match rnd with
  | u1 :: u2 :: rnd' =>
      (uniform (ylim self) u1, uniform (xlim self) u2) :: candidates rnd'
  | _ => []
  end.

(** [sample_locations]: [[self.sample_sf() for _ in range(2)]]. *)
Definition sample_locations (rnd : list Q) : outcome (point * point * list Q) :=
  obind (sample_sf rnd) (fun '(p1, rnd1) =>
  obind (sample_sf rnd1) (fun '(p2, rnd2) =>
  Ret (p1, p2, rnd2))).

End Sampler.

(** The instance as [__init__] builds it from the class constant. *)
Definition sf_bounds : bounds :=
  Eval vm_compute in
    match init_bounds sf_perim with
    | Ret b => b
    | _ => mkBounds (0, 0) (0, 0)
    end.

Definition sfPath : point -> bool := point_in_path sf_perim.

End Geo.

(** ** Travel times as text *)

Module Duration.

Open Scope string_scope.
Open Scope Z_scope.

(** *** The fragment of [re] that the two patterns use *)

(** A pattern is a sequence of items; an item is a character or a character
    range, repeated between [rmin] and [rmax] times, greedily. *)
Inductive atom : Type :=
| Lit (c : ascii)
| Range (lo hi : ascii).

Record item : Type := mkItem { it_atom : atom; rmin : nat; rmax : nat }.

Definition once (a : atom) : item := mkItem a 1 1.

Definition atom_matches (a : atom) (c : ascii) : bool :=
  match a with
  | Lit c' => Ascii.eqb c c'
  | Range lo hi =>
      (nat_of_ascii lo <=? nat_of_ascii c)%nat && (nat_of_ascii c <=? nat_of_ascii hi)%nat
  end.

(** How many of the first [n] characters of [s] match [a], from the left. *)
Fixpoint run_length (a : atom) (n : nat) (s : string) : nat :=
  match n, s with
  | S n', String c s' => if atom_matches a c then S (run_length a n' s') else O
  | _, _ => O
  end.

Fixpoint take (n : nat) (s : string) : string :=
  match n, s with
  | S n', String c s' => String c (take n' s')
  | _, _ => ""
  end.

Fixpoint drop (n : nat) (s : string) : string :=
  match n, s with
  | S n', String _ s' => drop n' s'
  | _, _ => s
  end.

(** The match of [re] that starts at the head of [s]: the longest repetition
    is tried first, then shorter ones (backtracking).  The result is the text
    matched, [m.group()]. *)
Fixpoint match_here (re : list item) (s : string) : option string :=
  match re with
  | [] => Some ""
  | it :: re' =>
      (fix attempt (k : nat) : option string :=
         if (k <? rmin it)%nat then None
         else match match_here re' (drop k s) with
              | Some m => Some (take k s ++ m)
              | None => match k with
                        | O => None
                        | S k' => attempt k'
                        end
              end) (run_length (it_atom it) (rmax it) s)
  end.

(** [re.search(re, s)]: the match at the leftmost position that has one. *)
Fixpoint search (re : list item) (s : string) : option string :=
  match match_here re s with
  | Some m => Some m
  | None => match s with
            | "" => None
            | String _ s' => search re s'
            end
  end.

(** ["[1-9] h"] and ["[0-9]{0,2} m"]. *)
Definition hour_re : list item :=
  [once (Range "1" "9"); once (Lit " "); once (Lit "h")].

Definition minute_re : list item :=
  [mkItem (Range "0" "9") 0 2; once (Lit " "); once (Lit "m")].

(** [m.group()] where [m] may be [None]. *)
Definition group (m : option string) : outcome string :=
  match m with
  | Some g => Ret g
  | None => Raise AttributeError
  end.

(** [old in s]. *)
Fixpoint str_in (old s : string) : bool :=
  prefix old s ||
  match s with
  | "" => false
  | String _ s' => str_in old s'
  end.

(** [s.replace(old, new)] for a non-empty [old]: occurrences are replaced from
    the left and do not overlap; [skip] counts the characters of an occurrence
    that are still to be passed. *)
Fixpoint replace_from (old new : string) (skip : nat) (s : string) : string :=
  match s with
  | "" => ""
  | String c s' =>
      match skip with
      | S k => replace_from old new k s'
      | O => if prefix old s
             then new ++ replace_from old new (String.length old - 1) s'
             else String c (replace_from old new O s')
      end
  end.

Definition replace (old new s : string) : string := replace_from old new O s.

(** [int(s)] on a text of decimal digits, the only texts the two patterns
    leave after [replace]; the empty text is a [ValueError]. *)
Definition digit_value (c : ascii) : option Z :=
  let n := nat_of_ascii c in
  if ((48 <=? n) && (n <=? 57))%nat then Some (Z.of_nat (n - 48)) else None.

Fixpoint digits_value (acc : Z) (s : string) : option Z :=
  match s with
  | "" => Some acc
  | String c s' =>
      match digit_value c with
      | Some d => digits_value (10 * acc + d) s'
      | None => None
      end
  end.

Definition int (s : string) : outcome Z :=
  match s with
  | "" => Raise ValueError
  | _ => match digits_value 0 s with
         | Some n => Ret n
         | None => Raise ValueError
         end
  end.

(** [parse_times]. *)
Definition parse_times (timestr : string) : outcome Z :=
  obind (if str_in "h" timestr
         then obind (group (search hour_re timestr)) (fun g =>
              obind (int (replace " h" "" g)) (fun hh => Ret (hh * 60)))
         else Ret 0) (fun hh =>
  obind (if str_in "m" timestr
         then obind (group (search minute_re timestr)) (fun g =>
              int (replace " m" "" g))
         else Ret 0) (fun mm =>
  Ret (hh + mm))).

End Duration.

(** ** The collection cycle *)

Module Trip.

Import Geo Duration.
Open Scope Z_scope.

(** The keys of [dir_dict]; each is also the name of a column. *)
Inductive dir_key : Type := k_driving | k_transit | k_walk | k_bicycle.

Definition dir_dict_keys : list dir_key := [k_driving; k_transit; k_walk; k_bicycle].

Definition dir_key_eqb (a b : dir_key) : bool :=
  match a, b with
  | k_driving, k_driving | k_transit, k_transit
  | k_walk, k_walk | k_bicycle, k_bicycle => true
  | _, _ => false
  end.

(** [onewaytimes]: a dict from the keys to minutes or [None]. *)
Definition dict : Type := list (dir_key * option Z).

Fixpoint dict_set (k : dir_key) (v : option Z) (d : dict) : dict :=
  match d with
  | [] => [(k, v)]
  | (k', v') :: d' =>
      if dir_key_eqb k k' then (k, v) :: d' else (k', v') :: dict_set k v d'
  end.

(** What one pass of [get_traveltimes] reads in the browser for a key: the
    non-empty texts of the duration elements once the wait is over, or the
    exception that a selenium call raised. *)
Definition page : Type := dir_key -> outcome (list string).

Fixpoint get_traveltimes_from (pg : page) (keys : list dir_key) (onewaytimes : dict)
  : outcome dict :=
  match keys with
  | [] => Ret onewaytimes
  | key :: keys' =>
      obind (pg key) (fun text =>
      obind (match text with
             | t0 :: _ => obind (parse_times t0) (fun n => Ret (Some n))
             | [] => Ret None
             end) (fun v =>
      get_traveltimes_from pg keys' (dict_set key v onewaytimes)))
  end.

Definition get_traveltimes (pg : page) : outcome dict :=
  get_traveltimes_from pg dir_dict_keys [].

(** A dict with an entry for each key of [dir_dict]. *)
Definition all_keys (d : dict) : Prop := forall k, In k (map fst d).

(** The truth value of [gtt], a dict or [None]: [not gtt] is its negation. *)
Definition truthy (gtt : option dict) : bool :=
  match gtt with
  | Some (_ :: _) => true
  | _ => false
  end.

(** [get_times]: [attempts] lists, for each call of [get_traveltimes] in
    turn, the page it meets and the value of [(now - t0).microseconds] read
    after it.  An exception inside the [try] leaves [gtt] and [wttm] as they
    were. *)
Fixpoint get_times_loop (wait_time : Z) (gtt : option dict) (wttm : Z)
         (attempts : list (page * Z)) : outcome (option dict) :=
  if negb (truthy gtt) && (wttm <=? wait_time) then
    match attempts with
    | [] => Diverge
    | (pg, us) :: attempts' =>
        match get_traveltimes pg with
        | Ret d => get_times_loop wait_time (Some d) us attempts'
        | Raise _ => get_times_loop wait_time gtt wttm attempts'
        | Diverge => Diverge
        end
    end
  else Ret gtt.

Definition get_times (wait_time : Z) (attempts : list (page * Z)) : outcome (option dict) :=
  get_times_loop wait_time None 0 attempts.

(** *** The frame *)

(** A row of [timesdf]; [None] is a null cell.  Each column has the type of
    the values that [run] stores in it; the timestamp is kept as its text. *)
Record row : Type := mkRow {
  arrive_add : option string;
  arrive_lat : option Q;
  arrive_lon : option Q;
  bicycle : option Z;
  depart_add : option string;
  depart_lat : option Q;
  depart_lon : option Q;
  driving : option Z;
  transit : option Z;
  walk : option Z;
  timestamp : option string
}.

(** [pd.DataFrame(columns=columns, index=(0,1))]: two rows of nulls. *)
Record frame : Type := mkFrame { row0 : row; row1 : row }.

Definition null_row : row :=
  mkRow None None None None None None None None None None None.

Definition timesdf : frame := mkFrame null_row null_row.

Inductive dirstr : Type := arrive | depart.

Definition set_latlon (d : dirstr) (p : point) (r : row) : row :=
  match d with
  | arrive =>
      mkRow (arrive_add r) (Some (fst p)) (Some (snd p)) (bicycle r) (depart_add r)
            (depart_lat r) (depart_lon r) (driving r) (transit r) (walk r) (timestamp r)
  | depart =>
      mkRow (arrive_add r) (arrive_lat r) (arrive_lon r) (bicycle r) (depart_add r)
            (Some (fst p)) (Some (snd p)) (driving r) (transit r) (walk r) (timestamp r)
  end.

Definition set_add (d : dirstr) (a : option string) (r : row) : row :=
  match d with
  | arrive =>
      mkRow a (arrive_lat r) (arrive_lon r) (bicycle r) (depart_add r)
            (depart_lat r) (depart_lon r) (driving r) (transit r) (walk r) (timestamp r)
  | depart =>
      mkRow (arrive_add r) (arrive_lat r) (arrive_lon r) (bicycle r) a
            (depart_lat r) (depart_lon r) (driving r) (transit r) (walk r) (timestamp r)
  end.

Definition set_key (k : dir_key) (v : option Z) (r : row) : row :=
  match k with
  | k_driving =>
      mkRow (arrive_add r) (arrive_lat r) (arrive_lon r) (bicycle r) (depart_add r)
            (depart_lat r) (depart_lon r) v (transit r) (walk r) (timestamp r)
  | k_transit =>
      mkRow (arrive_add r) (arrive_lat r) (arrive_lon r) (bicycle r) (depart_add r)
            (depart_lat r) (depart_lon r) (driving r) v (walk r) (timestamp r)
  | k_walk =>
      mkRow (arrive_add r) (arrive_lat r) (arrive_lon r) (bicycle r) (depart_add r)
            (depart_lat r) (depart_lon r) (driving r) (transit r) v (timestamp r)
  | k_bicycle =>
      mkRow (arrive_add r) (arrive_lat r) (arrive_lon r) v (depart_add r)
            (depart_lat r) (depart_lon r) (driving r) (transit r) (walk r) (timestamp r)
  end.

Definition set_timestamp (t : string) (r : row) : row :=
  mkRow (arrive_add r) (arrive_lat r) (arrive_lon r) (bicycle r) (depart_add r)
        (depart_lat r) (depart_lon r) (driving r) (transit r) (walk r) (Some t).

(** [isnull().sum(1)] for one row. *)
Definition isnull {A} (c : option A) : nat :=
  match c with
  | None => 1
  | Some _ => 0
  end.

Definition isnull_sum (r : row) : nat :=
  (isnull (arrive_add r) + isnull (arrive_lat r) + isnull (arrive_lon r)
   + isnull (bicycle r) + isnull (depart_add r) + isnull (depart_lat r)
   + isnull (depart_lon r) + isnull (driving r) + isnull (transit r)
   + isnull (walk r) + isnull (timestamp r))%nat.

(** [timesdf.ix[timesdf.isnull().sum(1) == 0]]: a new frame with the rows
    that hold no null. *)
Definition full_rows (f : frame) : list row :=
  filter (fun r => Nat.eqb (isnull_sum r) 0) [row0 f; row1 f].

(** *** A monad for the cycle: the shared frame is the state *)

Definition M (A : Type) : Type := frame -> outcome A * frame.

Definition ret {A} (a : A) : M A := fun f => (Ret a, f).

Definition bind {A B} (m : M A) (k : A -> M B) : M B :=
  fun f =>
    match m f with
    | (Ret a, f') => k a f'
    | (Raise e, f') => (Raise e, f')
    | (Diverge, f') => (Diverge, f')
    end.

Definition call {A} (o : outcome A) : M A := fun f => (o, f).

Notation "x <- m ;; k" := (bind m (fun x => k))
  (at level 61, m at next level, right associativity).
Notation "m ;;; k" := (bind m (fun _ => k))
  (at level 61, right associativity).

(** [timesdf.loc[i, ...] = ...] and [timesdf.loc[i, col]], for the index
    labels 0 and 1 of the frame. *)
Definition loc_set (i : nat) (upd : row -> row) : M unit :=
  fun f =>
    match i with
    | O => (Ret tt, mkFrame (upd (row0 f)) (row1 f))
    | _ => (Ret tt, mkFrame (row0 f) (upd (row1 f)))
    end.

Definition loc_get {A} (i : nat) (col : row -> A) : M A :=
  fun f =>
    match i with
    | O => (Ret (col (row0 f)), f)
    | _ => (Ret (col (row1 f)), f)
    end.

Fixpoint for_each {A} (l : list A) (body : A -> M unit) : M unit :=
  match l with
  | [] => ret tt
  | a :: l' => body a ;;; for_each l' body
  end.

(** *** The instance and what it meets outside *)

Record scraper : Type := mkScraper {
  sfPath : point -> bool;
  lims : bounds;
  wait_time : Z
}.

Record world : Type := mkWorld {
  rnd : list Q;                            (* the values of [random()] *)
  reverse : point -> outcome (option string);
                                           (* [geolocator.reverse]: the address
                                              of the location found, if any *)
  searchboxes : outcome unit;              (* the calls of [initialize_directions] *)
  pages_out : list (page * Z);             (* outbound [get_times] *)
  now_out : string;
  reverse_icon : outcome unit;             (* the click of [reverse_direction] *)
  pages_back : list (page * Z);            (* return [get_times] *)
  now_back : string
}.

(** [get_address]: [loc.address] where [loc] is [None] when nothing is found. *)
Definition get_address (w : world) (latlon : point) : outcome string :=
  obind (reverse w latlon) (fun loc =>
  match loc with
  | Some address => Ret address
  | None => Raise AttributeError
  end).

(** [if gt: for key, val in gt.items(): timesdf.loc[i, key] = val]. *)
Definition store_times (i : nat) (gt : option dict) : M unit :=
  if truthy gt
  then for_each (match gt with Some d => d | None => [] end)
                (fun kv => loc_set i (set_key (fst kv) (snd kv)))
  else ret tt.

(** The cell of a key after the items of [d] have been stored in turn over
    a cell that held [before], and a row after [store_times]. *)
Fixpoint stored_cell (k : dir_key) (d : dict) (before : option Z) : option Z :=
  match d with
  | [] => before
  | (k', v) :: d' => stored_cell k d' (if dir_key_eqb k k' then v else before)
  end.

Definition stored_row (d : dict) (r : row) : row :=
  mkRow (arrive_add r) (arrive_lat r) (arrive_lon r)
        (stored_cell k_bicycle d (bicycle r)) (depart_add r)
        (depart_lat r) (depart_lon r) (stored_cell k_driving d (driving r))
        (stored_cell k_transit d (transit r)) (stored_cell k_walk d (walk r))
        (timestamp r).

(** [run].  The local name [timesdf] is bound to the frame of the class, so
    every [loc] assignment writes the frame that the next call starts from;
    the rows returned are a filtered copy.  The [astype] conversions leave the
    values of the typed cells as they are. *)
Definition run (self : scraper) (w : world) : M (list row) :=
  s <- call (sample_locations (sfPath self) (lims self) (rnd w)) ;;
  let a := fst (fst s) in
  let d := snd (fst s) in
  for_each [(arrive, a); (depart, d)] (fun x =>
    loc_set 0 (set_latlon (fst x) (snd x)) ;;;
    address <- call (get_address w (snd x)) ;;
    loc_set 0 (set_add (fst x) (Some address))) ;;;
  call (searchboxes w) ;;;
  gt <- call (get_times (wait_time self) (pages_out w)) ;;
  loc_set 0 (set_timestamp (now_out w)) ;;;
  store_times 0 gt ;;;
  (* reverse *)
  for_each [(arrive, d); (depart, a)] (fun x =>
    loc_set 1 (set_latlon (fst x) (snd x))) ;;;
  add_d <- loc_get 0 depart_add ;;
  add_a <- loc_get 0 arrive_add ;;
  loc_set 1 (set_add arrive add_d) ;;;
  loc_set 1 (set_add depart add_a) ;;;
  call (reverse_icon w) ;;;
  gt <- call (get_times (wait_time self) (pages_back w)) ;;
  loc_set 1 (set_timestamp (now_back w)) ;;;
  store_times 1 gt ;;;
  fun f => (Ret (full_rows f), f).

End Trip.

(** ** The recorder *)

Module Db.

Open Scope Z_scope.

(** The Python values that a field of a row can hold. *)
Inductive pyval : Type :=
| PyNone
| PyBool (b : bool)
| PyInt (z : Z)
| PyFloat (q : Q)
| PyStr (s : string).

(** The classes that [record] tests against. *)
Inductive pyclass : Type := c_object | c_float | c_int.

(** [isinstance(v, c)]: every value is an [object]; [bool] is a subclass of
    [int]; an [int] is not a [float]. *)
Definition isinstance (v : pyval) (c : pyclass) : bool :=
  match c, v with
  | c_object, _ => true
  | c_float, PyFloat _ => true
  | c_int, PyInt _ => true
  | c_int, PyBool _ => true
  | _, _ => false
  end.

Definition fields : list string :=
  ["arrive_add"; "arrive_lat"; "arrive_lon"; "bicycle"; "depart_add";
   "depart_lat"; "depart_lon"; "driving"; "transit"; "walk"; "timestamp"]%string.

Definition dtypes : list string :=
  ["text"; "real"; "real"; "integer"; "text"; "real";
   "real"; "integer"; "integer"; "integer"; "text"]%string.

(** The tuple that [record] enumerates. *)
Definition checked : list pyclass :=
  [c_object; c_float; c_float; c_int; c_object; c_float;
   c_float; c_int; c_int; c_int; c_object].

Definition tuple : Type := list pyval.

(** The instance, the table behind its connection and what it printed.  Each
    element of [commits] is the batch of one [executemany] followed by
    [commit]. *)
Record database : Type := mkDb {
  buffer_size : Z;
  data_buffer : list tuple;
  commits : list (list tuple);
  stdout : list string
}.

Definition with_buffer (d : database) (b : list tuple) : database :=
  mkDb (buffer_size d) b (commits d) (stdout d).

Definition print (d : database) (s : string) : database :=
  mkDb (buffer_size d) (data_buffer d) (commits d) (stdout d ++ [s]).

(** [Database(path, buffer_size)] on a path that holds no table yet. *)
Definition open (buffer_size : Z) : database := mkDb buffer_size [] [] [].

(** The three ways the checking loop can end. *)
Inductive verdict : Type :=
| Passed
| Failed              (* [isinstance] answered [False]: "failed!" *)
| Missing.            (* [data[idx]] raised [IndexError] *)

(** [for idx, dtype in enumerate(...)], from index [idx] on. *)
Fixpoint check_from (idx : nat) (classes : list pyclass) (data : tuple) : verdict :=
  match classes with
  | [] => Passed
  | dtype :: classes' =>
      match nth_error data idx with
      | None => Missing
      | Some v => if isinstance v dtype then check_from (S idx) classes' data else Failed
      end
  end.

Definition check (data : tuple) : verdict := check_from 0 checked data.

(** What sqlite3 can store of a value: an integer has to fit in 64 bits, with
    its sign; [None], booleans, floats and the texts of the model are stored
    as they are. *)
Definition storable (v : pyval) : bool :=
  match v with
  | PyInt z => (- 2 ^ 63 <=? z) && (z <? 2 ^ 63)
  | _ => true
  end.

(** One tuple of [executemany]: [insert_cmd] has one placeholder per field,
    and sqlite3 raises [ProgrammingError] when the tuple does not hold exactly
    that many values; it then binds the values in turn and raises
    [OverflowError] at an integer it cannot store. *)
Definition bind_error (t : tuple) : option exn :=
  if negb (Nat.eqb (List.length t) (List.length fields)) then Some ProgrammingError
  else if negb (forallb storable t) then Some OverflowError
  else None.

Definition binds (t : tuple) : bool :=
  match bind_error t with
  | None => true
  | Some _ => false
  end.

(** [executemany(insert_cmd, data_buffer)]: the tuples are inserted in their
    order, and the first that cannot be bound ends the call. *)
Fixpoint executemany (rows : list tuple) : outcome unit :=
  match rows with
  | [] => Ret tt
  | t :: rows' =>
      match bind_error t with
      | Some e => Raise e
      | None => executemany rows'
      end
  end.

(** [executemany] then [commit()], then [self.data_buffer = []].  When
    [executemany] raises, the commit and the assignment are not reached:
    nothing is committed and the buffer stays. *)
Definition flush (d : database) : outcome unit * database :=
  match executemany (data_buffer d) with
  | Ret _ => (Ret tt, mkDb (buffer_size d) [] (commits d ++ [data_buffer d]) (stdout d))
  | Raise e => (Raise e, d)
  | Diverge => (Diverge, d)
  end.

(** [record]: the value returned is [None] on both paths that return. *)
Definition record (d : database) (data : tuple) : outcome pyval * database :=
  match check data with
  | Missing => (Raise IndexError, d)
  | Failed => (Ret PyNone, print d "failed!")
  | Passed =>
      let d1 := with_buffer d (data_buffer d ++ [data]) in
      if Z.of_nat (List.length (data_buffer d1)) >=? buffer_size d1
      then match flush d1 with
           | (Ret _, d2) => (Ret PyNone, d2)
           | (Raise e, d2) => (Raise e, d2)
           | (Diverge, d2) => (Diverge, d2)
           end
      else (Ret PyNone, d1)
  end.

(** The caller's loop, [for dat in rows: gdb.record(dat)]: it stops at the
    first exception. *)
Fixpoint record_all (d : database) (rows : list tuple) : outcome unit * database :=
  match rows with
  | [] => (Ret tt, d)
  | data :: rows' =>
      match record d data with
      | (Ret _, d') => record_all d' rows'
      | (Raise e, d') => (Raise e, d')
      | (Diverge, d') => (Diverge, d')
      end
  end.

(** A row of the table: one value per field, each of the class checked. *)
Definition trip_record (data : tuple) : Prop :=
  List.length data = List.length fields /\ check data = Passed.

(** A row that passes the checks and that the insert command can bind. *)
Definition table_row (data : tuple) : Prop :=
  check data = Passed /\ binds data = true.

(** The row [data] with [v] at position [idx]. *)
Fixpoint put (idx : nat) (v : pyval) (data : tuple) : tuple :=
  match data, idx with
  | [], _ => []
  | _ :: data', O => v :: data'
  | a :: data', S idx' => a :: put idx' v data'
  end.

(** [np.array(ms.run())]: a returned row as the sequence of its values, in
    the order of the columns. *)
Definition cell {A} (inj : A -> pyval) (c : option A) : pyval :=
  match c with
  | Some a => inj a
  | None => PyNone
  end.

Definition values (r : Trip.row) : tuple :=
  [cell PyStr (Trip.arrive_add r); cell PyFloat (Trip.arrive_lat r);
   cell PyFloat (Trip.arrive_lon r); cell PyInt (Trip.bicycle r);
   cell PyStr (Trip.depart_add r); cell PyFloat (Trip.depart_lat r);
   cell PyFloat (Trip.depart_lon r); cell PyInt (Trip.driving r);
   cell PyInt (Trip.transit r); cell PyInt (Trip.walk r);
   cell PyStr (Trip.timestamp r)].

End Db.

(** ** Concrete instances, pages and rows *)

Module Scenarios.

Import Geo Trip Db.
Open Scope string_scope.

(** An instance with the default [wait_time=1.5e7], and one whose wait is
    over before it starts. *)
Definition ms : scraper := mkScraper Geo.sfPath sf_bounds 15000000.
Definition ms_no_wait : scraper := mkScraper Geo.sfPath sf_bounds (-1).

(** Three candidates: a corner of the bounding box, then two points of the
    city. *)
Definition draws : list Q := [0; 0; 1 # 2; 1 # 2; 1 # 4; 1 # 2]%Q.

Definition nominatim (p : point) : outcome (option string) :=
  Ret (Some (if Qle_bool (deg 37750000) (fst p) then "Geary Boulevard" else "Ocean Avenue")).

Definition nominatim_down (p : point) : outcome (option string) :=
  Raise GeocoderTimedOut.

Definition shows (drv trn wlk bic : list string) : page :=
  fun key =>
    Ret match key with
        | k_driving => drv
        | k_transit => trn
        | k_walk => wlk
        | k_bicycle => bic
        end.

Definition page_out : page := shows ["14 min"] ["41 min"] ["1 h 32 min"] ["27 min"].
Definition page_back : page := shows ["16 min"] ["38 min"] ["1 h 35 min"] ["31 min"].
Definition page_no_walk : page := shows ["16 min"] ["38 min"] [] ["31 min"].

Definition world_full : world :=
  mkWorld draws nominatim (Ret tt) [(page_out, 250000%Z)] "2016-01-20 18:41:38"
          (Ret tt) [(page_back, 310000%Z)] "2016-01-20 18:41:45".

Definition world_no_walk : world :=
  mkWorld draws nominatim (Ret tt) [(page_out, 250000%Z)] "2016-01-20 18:41:38"
          (Ret tt) [(page_no_walk, 310000%Z)] "2016-01-20 18:41:45".

Definition world_geocoder_down : world :=
  mkWorld draws nominatim_down (Ret tt) [(page_out, 250000%Z)] "2016-01-20 18:41:38"
          (Ret tt) [(page_back, 310000%Z)] "2016-01-20 18:41:45".

(** A second cycle, at other points, in which the browser shows nothing. *)
Definition world_blank : world :=
  mkWorld [3 # 4; 1 # 2; 1 # 2; 1 # 2]%Q nominatim (Ret tt) [] "2016-01-20 18:42:10"
          (Ret tt) [] "2016-01-20 18:42:17".

(** Texts as the page shows them: ["1 h 32 min"], ["27 min"]. *)
Definition digit (n : nat) : string :=
  String (ascii_of_nat (48 + n)) "".

Definition decimal (n : nat) : string :=
  if (n <? 10)%nat then digit n else digit (n / 10) ++ digit (n mod 10).

Definition shown_hours_minutes (h m : nat) : string :=
  decimal h ++ " h " ++ decimal m ++ " min".

Definition shown_minutes (m : nat) : string := decimal m ++ " min".

Definition shown_hours (h : nat) : string := decimal h ++ " h".

(** Rows for the recorder. *)
Definition good_row : tuple :=
  [PyStr "Geary Boulevard"; PyFloat (deg 37780000); PyFloat (deg (-122460000)); PyInt 27;
   PyStr "Ocean Avenue"; PyFloat (deg 37720000); PyFloat (deg (-122450000)); PyInt 14;
   PyInt 41; PyInt 92; PyStr "2016-01-20 18:41:38"].

(** The same row with the text ["north"] for [arrive_lat]. *)
Definition bad_row : tuple :=
  [PyStr "Geary Boulevard"; PyStr "north"; PyFloat (deg (-122460000)); PyInt 27;
   PyStr "Ocean Avenue"; PyFloat (deg 37720000); PyFloat (deg (-122450000)); PyInt 14;
   PyInt 41; PyInt 92; PyStr "2016-01-20 18:41:38"].

(** A row whose three text positions hold no text. *)
Definition odd_text_row : tuple :=
  [PyNone; PyFloat (deg 37780000); PyFloat (deg (-122460000)); PyInt 27;
   PyInt 7; PyFloat (deg 37720000); PyFloat (deg (-122450000)); PyInt 14;
   PyInt 41; PyInt 92; PyBool true].

End Scenarios.

(** ** Waiting for a duration to show *)

Module Polling.

Import Duration Trip.
Open Scope string_scope.

(** [get_cn_text]: the texts of the elements found, without the empty ones. *)
Definition get_cn_text (elements : list string) : list string :=
  filter (fun text => negb (String.eqb text "")) elements.

(** The page as the loop meets it: [dom k] lists the texts of the duration
    elements at the [k]-th look, counted from 0. *)
Definition looks : Type := nat -> list string.

(** [while wait_counter < 10 and len(self.get_cn_text(self.wpsdtd)) < 1]:
    the elements are looked up only when the counter is below 10; each turn
    sleeps and adds one to the counter.  The result is the counter and the
    number of looks when the loop is left. *)
Fixpoint wait_loop (dom : looks) (fuel wait_counter look : nat) : outcome (nat * nat) :=
  match fuel with
  | O => Diverge
  | S fuel' =>
      if (wait_counter <? 10)%nat then
        if (List.length (get_cn_text (dom look)) <? 1)%nat
        then wait_loop dom fuel' (S wait_counter) (S look)
        else Ret (wait_counter, S look)
      else Ret (wait_counter, look)
  end.

(** The lines of [get_traveltimes] that follow the click, for one key: the
    loop, then [text = self.get_cn_text(self.wpsdtd)], which looks once more.
    The lookups are taken to raise nothing. *)
Definition read_text (dom : looks) (fuel : nat) : outcome (list string) :=
  obind (wait_loop dom fuel 0 0) (fun s => Ret (get_cn_text (dom (snd s)))).

End Polling.

(** ** The commands of the table *)

Module Schema.

Import Db.
Open Scope string_scope.

(** [sep.join(l)]. *)
Fixpoint join (sep : string) (l : list string) : string :=
  match l with
  | [] => ""
  | x :: l' =>
      match l' with
      | [] => x
      | _ :: _ => x ++ sep ++ join sep l'
      end
  end.

(** The two commands that [__init__] builds from the names and the types. *)
Definition create_cmd (fields dtypes : list string) : string :=
  "create table google_responses ("
  ++ join ", " (map (fun p => fst p ++ " " ++ snd p) (combine fields dtypes))
  ++ ")".

Definition insert_cmd (fields : list string) : string :=
  "insert into google_responses values ("
  ++ join ", " (repeat "?" (List.length fields))
  ++ ")".

(** The number of occurrences of a character, here of the placeholder. *)
Fixpoint count_char (c : ascii) (s : string) : nat :=
  match s with
  | "" => O
  | String a s' => (if Ascii.eqb a c then 1 else 0) + count_char c s'
  end.

End Schema.

(** ** Further texts and rows *)

Module Samples.

Import Geo Trip Db Scenarios.
Open Scope string_scope.

(** A count of three digits as the page shows it. *)
Definition decimal3 (n : nat) : string :=
  digit (n / 100) ++ digit ((n / 10) mod 10) ++ digit (n mod 10).

(** Looks at a page that shows the duration from the third look on, and at
    one that never shows it. *)
Definition dom_slow : Polling.looks :=
  fun k => if (k <? 2)%nat then [""; ""] else ["14 min"; ""; "12 min"].

Definition dom_blank : Polling.looks := fun _ => [""].

(** A row with an integer for a latitude and a boolean for a duration, and
    a row that stops after the seventh value. *)
Definition int_lat_row : tuple :=
  [PyStr "Geary Boulevard"; PyInt 37; PyFloat (deg (-122460000)); PyInt 27;
   PyStr "Ocean Avenue"; PyFloat (deg 37720000); PyFloat (deg (-122450000)); PyInt 14;
   PyInt 41; PyInt 92; PyStr "2016-01-20 18:41:38"].

Definition bool_time_row : tuple :=
  [PyStr "Geary Boulevard"; PyFloat (deg 37780000); PyFloat (deg (-122460000)); PyBool true;
   PyStr "Ocean Avenue"; PyFloat (deg 37720000); PyFloat (deg (-122450000)); PyInt 14;
   PyInt 41; PyInt 92; PyStr "2016-01-20 18:41:38"].

(** [good_row] with a twelfth value, and [good_row] with a driving time that
    does not fit in 64 bits: both pass the checks. *)
Definition long_row : tuple := (good_row ++ [PyNone])%list.

Definition big_row : tuple := put 7 (PyInt (2 ^ 63)) good_row.

Definition short_row : tuple :=
  [PyStr "Geary Boulevard"; PyFloat (deg 37780000); PyFloat (deg (-122460000)); PyInt 27;
   PyStr "Ocean Avenue"; PyFloat (deg 37720000); PyFloat (deg (-122450000))].

(** A page whose walking time has two digits of hours, and one on which a
    selenium call fails. *)
Definition page_long_walk : page := shows ["14 min"] ["41 min"] ["10 h 5 min"] ["27 min"].

Definition page_stale : page := fun _ => Raise WebDriverException.

End Samples.

(** * Properties *)

(** ** The perimeter and the sampler *)

Module GeoFacts.

Import Geo.
Open Scope Q_scope.

(** [Qle_bool] against the order of [Q]. *)
Lemma Qle_bool_false (x y : Q) : Qle_bool x y = false <-> y < x.
Proof.
  split; intro H.
  - apply Qnot_le_lt. intro C. apply Qle_bool_iff in C. congruence.
  - destruct (Qle_bool x y) eqn:E; [|reflexivity].
    apply Qle_bool_iff in E. lra.
Qed.

(** The least and the greatest value bound every element. *)
Lemma amin_from_le (l : list Q) : forall x,
  amin_from x l <= x /\ Forall (fun y => amin_from x l <= y) l.
Proof.
  induction l as [|y l IH]; intro x; simpl.
  - split; [lra | constructor].
  - destruct (IH (if Qle_bool y x then y else x)) as [H1 H2].
    destruct (Qle_bool y x) eqn:E.
    + apply Qle_bool_iff in E. split; [lra|]. constructor; assumption.
    + apply Qle_bool_false in E. split; [lra|]. constructor; [lra | assumption].
Qed.

Lemma amax_from_ge (l : list Q) : forall x,
  x <= amax_from x l /\ Forall (fun y => y <= amax_from x l) l.
Proof.
  induction l as [|y l IH]; intro x; simpl.
  - split; [lra | constructor].
  - destruct (IH (if Qle_bool x y then y else x)) as [H1 H2].
    destruct (Qle_bool x y) eqn:E.
    + apply Qle_bool_iff in E. split; [lra|]. constructor; [lra | assumption].
    + apply Qle_bool_false in E. split; [lra|]. constructor; [lra | assumption].
Qed.

(** An edge with both ends on one side of the ray is not met. *)
Lemma edge_level (t v0 v1 : point) :
  above t v0 = above t v1 -> edge_crossed t v0 v1 = false.
Proof.
  intro H. unfold edge_crossed. rewrite H, eqb_reflx. reflexivity.
Qed.

(** An edge with both ends behind the test point is not met. *)
Lemma edge_behind (t v0 v1 : point) :
  fst v0 < fst t -> fst v1 < fst t -> edge_crossed t v0 v1 = false.
Proof.
  intros H0 H1. unfold edge_crossed, above.
  destruct (Qle_bool (snd t) (snd v0)) eqn:E0, (Qle_bool (snd t) (snd v1)) eqn:E1; simpl; try reflexivity.
  - apply Qle_bool_iff in E0. apply Qle_bool_false in E1.
    destruct (Qle_bool _ _) eqn:E; [reflexivity|].
    apply Qle_bool_false in E. nra.
  - apply Qle_bool_false in E0. apply Qle_bool_iff in E1.
    destruct (Qle_bool _ _) eqn:E; [|reflexivity].
    apply Qle_bool_iff in E. nra.
Qed.

(** An edge with both ends ahead of the test point is met exactly when its
    ends are on opposite sides of the ray. *)
Lemma edge_ahead (t v0 v1 : point) :
  fst t < fst v0 -> fst t < fst v1 ->
  edge_crossed t v0 v1 = xorb (above t v0) (above t v1).
Proof.
  intros H0 H1. unfold edge_crossed, above.
  destruct (Qle_bool (snd t) (snd v0)) eqn:E0, (Qle_bool (snd t) (snd v1)) eqn:E1; simpl; try reflexivity.
  - apply Qle_bool_iff in E0. apply Qle_bool_false in E1.
    destruct (Qle_bool _ _) eqn:E; [|reflexivity].
    apply Qle_bool_iff in E. nra.
  - apply Qle_bool_false in E0. apply Qle_bool_iff in E1.
    destruct (Qle_bool _ _) eqn:E; [reflexivity|].
    apply Qle_bool_false in E. nra.
Qed.

Lemma crossings_level (t : point) (b : bool) (rest : list point) :
  forall start prev,
    above t start = b -> above t prev = b ->
    Forall (fun v => above t v = b) rest ->
    crossings t start prev rest = false.
Proof.
  induction rest as [|v rest IH]; intros start prev Hs Hp Hr; simpl.
  - apply edge_level. congruence.
  - apply Forall_cons_iff in Hr as [Hv Hr'].
    rewrite edge_level by congruence.
    rewrite IH by assumption. reflexivity.
Qed.

Lemma crossings_behind (t : point) (rest : list point) :
  forall start prev,
    fst start < fst t -> fst prev < fst t ->
    Forall (fun v => fst v < fst t) rest ->
    crossings t start prev rest = false.
Proof.
  induction rest as [|v rest IH]; intros start prev Hs Hp Hr; simpl.
  - apply edge_behind; assumption.
  - apply Forall_cons_iff in Hr as [Hv Hr'].
    rewrite edge_behind by assumption.
    rewrite IH by assumption. reflexivity.
Qed.

(** With every vertex ahead of the test point, the ray meets each edge whose
    ends lie on opposite sides of it: along the path the crossings add up to
    the difference between the two ends. *)
Lemma crossings_ahead (t : point) (rest : list point) :
  forall start prev,
    fst t < fst start -> fst t < fst prev ->
    Forall (fun v => fst t < fst v) rest ->
    crossings t start prev rest = xorb (above t prev) (above t start).
Proof.
  induction rest as [|v rest IH]; intros start prev Hs Hp Hr; simpl.
  - apply edge_ahead; assumption.
  - apply Forall_cons_iff in Hr as [Hv Hr'].
    rewrite edge_ahead by assumption.
    rewrite IH by assumption.
    destruct (above t prev), (above t v), (above t start); reflexivity.
Qed.

(** Every vertex lies in the box that [__init__] computes. *)
Lemma init_bounds_box (perim : list point) (b : bounds) :
  init_bounds perim = Ret b ->
  Forall (fun v => ymin b <= fst v <= ymax b /\ xmin b <= snd v <= xmax b) perim.
Proof.
  destruct perim as [|v0 rest]; [discriminate|].
  unfold init_bounds, lats, lons; simpl. intro H. injection H as <-.
  unfold ymin, ymax, xmin, xmax; simpl.
  destruct (amin_from_le (map fst rest) (fst v0)) as [A1 A2].
  destruct (amax_from_ge (map fst rest) (fst v0)) as [B1 B2].
  destruct (amin_from_le (map snd rest) (snd v0)) as [C1 C2].
  destruct (amax_from_ge (map snd rest) (snd v0)) as [D1 D2].
  constructor; [lra|].
  rewrite Forall_map in A2, B2, C2, D2.
  rewrite Forall_forall in *. intros v Hv.
  specialize (A2 v Hv). specialize (B2 v Hv). specialize (C2 v Hv). specialize (D2 v Hv).
  simpl in *. lra.
Qed.

Lemma point_in_path_outside (perim : list point) (b : bounds) (P : point) :
  init_bounds perim = Ret b ->
  fst P < ymin b \/ ymax b < fst P \/ snd P < xmin b \/ xmax b < snd P ->
  point_in_path perim P = false.
Proof.
  intros Hb Hout. pose proof (@init_bounds_box perim b Hb) as Hbox.
  destruct perim as [|v0 rest]; [reflexivity|].
  apply Forall_cons_iff in Hbox as [H0 Hrest].
  assert (Hc : crossings P v0 v0 rest = false);
    [|destruct rest as [|v1 [|v2 rest]]; try reflexivity;
      unfold point_in_path; rewrite Hc; apply andb_false_r].
  destruct Hout as [H | [H | [H | H]]].
  - rewrite crossings_ahead.
    + apply xorb_nilpotent.
    + lra.
    + lra.
    + eapply Forall_impl; [|exact Hrest]. simpl. intros; lra.
  - apply crossings_behind; try lra.
    eapply Forall_impl; [|exact Hrest]. simpl. intros; lra.
  - apply crossings_level with (b := true).
    + apply Qle_bool_iff. lra.
    + apply Qle_bool_iff. lra.
    + eapply Forall_impl; [|exact Hrest]. simpl. intros. apply Qle_bool_iff. lra.
  - apply crossings_level with (b := false).
    + apply Qle_bool_false. lra.
    + apply Qle_bool_false. lra.
    + eapply Forall_impl; [|exact Hrest]. simpl. intros. apply Qle_bool_false. lra.
Qed.

(** The model is strict: a point on an edge of the path is not inside, and a
    path of fewer than three vertices has no inside. *)
Lemma point_in_path_strict (perim : list point) (P : point) :
  point_in_path perim P = true ->
  (3 <= List.length perim)%nat
  /\ exists v0 rest, perim = v0 :: rest /\ on_path P v0 v0 rest = false.
Proof.
  destruct perim as [|v0 [|v1 [|v2 rest]]]; try discriminate.
  unfold point_in_path. intro H. apply andb_true_iff in H as [H _].
  split; [simpl; lia|].
  exists v0, (v1 :: v2 :: rest). split; [reflexivity|].
  destruct (on_path P v0 v0 (v1 :: v2 :: rest)); [discriminate | reflexivity].
Qed.

(** What a returned coordinate is: the candidate made of the two values
    that follow a run of rejected candidates. *)
Lemma sample_sf_accepted (contains_point : point -> bool) (self : bounds) (rnd : list Q) :
  forall n, (List.length rnd <= n)%nat ->
  forall P rnd', sample_sf contains_point self rnd = Ret (P, rnd') ->
    contains_point P = true /\
    exists before u1 u2,
      rnd = before ++ u1 :: u2 :: rnd'
      /\ P = (uniform (ylim self) u1, uniform (xlim self) u2)
      /\ Forall (fun c => contains_point c = false) (candidates self before)
      /\ Nat.Even (List.length before).
Proof.
  intro n. revert rnd.
  induction n as [|n IH]; intros rnd Hn P rnd' H.
  - destruct rnd; [discriminate | simpl in Hn; lia].
  - destruct rnd as [|u1 [|u2 rnd1]]; try discriminate.
    simpl in H.
    destruct (contains_point (uniform (ylim self) u1, uniform (xlim self) u2)) eqn:E;
      simpl in H.
    + injection H as <- <-. split; [exact E|].
      exists [], u1, u2. repeat split; [constructor | exists O; reflexivity].
    + apply IH in H; [|simpl in Hn; lia].
      destruct H as [Hc (before & v1 & v2 & Hr & HP & Hrej & [k Hk])].
      split; [exact Hc|].
      exists (u1 :: u2 :: before), v1, v2. simpl.
      repeat split.
      * rewrite Hr. reflexivity.
      * exact HP.
      * constructor; assumption.
      * exists (S k). lia.
Qed.

(** The loop returns as soon as the generator yields an accepted candidate
    after an even number of values. *)
Lemma sample_sf_returns (contains_point : point -> bool) (self : bounds)
      (u1 u2 : Q) (rest : list Q) :
  contains_point (uniform (ylim self) u1, uniform (xlim self) u2) = true ->
  forall n before, List.length before = (2 * n)%nat ->
  exists P rnd', sample_sf contains_point self (before ++ u1 :: u2 :: rest) = Ret (P, rnd').
Proof.
  intros Hc n. induction n as [|n IH]; intros before Hlen.
  - destruct before; [|discriminate]. simpl. rewrite Hc. simpl. eauto.
  - destruct before as [|v1 [|v2 before']]; try (simpl in Hlen; lia).
    simpl.
    destruct (contains_point (uniform (ylim self) v1, uniform (xlim self) v2)); simpl.
    + eauto.
    + apply IH. simpl in Hlen. lia.
Qed.

(** A value of the generator in [0, 1] gives a coordinate between the two
    limits. *)
Lemma uniform_between (lim : Q * Q) (u : Q) :
  fst lim <= snd lim -> 0 <= u <= 1 ->
  fst lim <= uniform lim u <= snd lim.
Proof.
  unfold uniform. intros Hl [H0 H1]. split; nra.
Qed.

(** C1: every coordinate that the rejection sampling [sample_sf] returns
    passes the membership test [in_sf]: it is the candidate drawn from the
    bounding box with the two values that follow the discarded candidates,
    each of which failed the test. *)
Theorem sample_sf_in_sf (contains_point : point -> bool) (self : bounds)
        (rnd rnd' : list Q) (P : point) :
  sample_sf contains_point self rnd = Ret (P, rnd') ->
  in_sf contains_point P = true
  /\ exists before u1 u2,
       rnd = before ++ u1 :: u2 :: rnd'
       /\ P = (uniform (ylim self) u1, uniform (xlim self) u2)
       /\ Forall (fun c => in_sf contains_point c = false) (candidates self before).
Proof.
  intro H.
  destruct (sample_sf_accepted contains_point self rnd (le_n _) H)
    as [Hc (before & u1 & u2 & Hr & HP & Hrej & _)].
  split.
  - unfold in_sf. rewrite Hc. reflexivity.
  - exists before, u1, u2. repeat split; try assumption.
    eapply Forall_impl; [|exact Hrej].
    intros c Hf. unfold in_sf. rewrite Hf. reflexivity.
Qed.

Lemma sample_sf_in_sf_witness :
  sample_sf sfPath sf_bounds Scenarios.draws
    = Ret ((uniform (ylim sf_bounds) (1 # 2), uniform (xlim sf_bounds) (1 # 2)),
           [1 # 4; 1 # 2])
  /\ in_sf sfPath (uniform (ylim sf_bounds) (1 # 2), uniform (xlim sf_bounds) (1 # 2)) = true.
Proof.
  assert (E : sample_sf sfPath sf_bounds Scenarios.draws
              = Ret ((uniform (ylim sf_bounds) (1 # 2), uniform (xlim sf_bounds) (1 # 2)),
                     [1 # 4; 1 # 2])) by (vm_compute; reflexivity).
  split; [exact E | exact (proj1 (sample_sf_in_sf sfPath sf_bounds Scenarios.draws E))].
Defined.

(** C8: a point strictly outside the bounding box of the vertices (its
    latitude below the least or above the greatest latitude, or its longitude
    below the least or above the greatest longitude) fails the membership
    test. *)
Theorem in_sf_outside_bounds (perim : list point) (b : bounds) (P : point) :
  init_bounds perim = Ret b ->
  fst P < ymin b \/ ymax b < fst P \/ snd P < xmin b \/ xmax b < snd P ->
  in_sf (point_in_path perim) P = false.
Proof.
  intros Hb Hout. unfold in_sf.
  rewrite (point_in_path_outside perim P Hb Hout). reflexivity.
Qed.

Lemma in_sf_outside_bounds_witness :
  init_bounds sf_perim = Ret sf_bounds
  /\ ymax sf_bounds < fst (deg 38000000, deg (-122440000))
  /\ in_sf sfPath (deg 38000000, deg (-122440000)) = false.
Proof.
  assert (Hb : init_bounds sf_perim = Ret sf_bounds) by (vm_compute; reflexivity).
  assert (Hn : ymax sf_bounds < fst (deg 38000000, deg (-122440000)))
    by (vm_compute; reflexivity).
  split; [exact Hb | split; [exact Hn |]].
  exact (in_sf_outside_bounds sf_perim (deg 38000000, deg (-122440000)) Hb
           (or_intror (or_introl Hn))).
Defined.

End GeoFacts.

(** ** Travel times as text *)

Module DurationFacts.

Import Duration Scenarios.
Open Scope string_scope.
Open Scope Z_scope.

(** The texts of the page, with a space before the unit, parse as the
    docstring describes. *)
Lemma parse_times_spaced_examples :
  parse_times "47 min" = Ret 47
  /\ parse_times "1 h 12 min" = Ret 72
  /\ parse_times "2 h" = Ret 120.
Proof. repeat split; vm_compute; reflexivity. Qed.

(** An hour component contributes sixty times its digit, a minute component
    its digits, an absent component nothing. *)
Lemma parse_times_hours_minutes (h m : nat) :
  (1 <= h <= 9)%nat -> (m <= 99)%nat ->
  parse_times (shown_hours_minutes h m) = Ret (60 * Z.of_nat h + Z.of_nat m)
  /\ parse_times (shown_minutes m) = Ret (Z.of_nat m)
  /\ parse_times (shown_hours h) = Ret (60 * Z.of_nat h).
Proof.
  intros Hh Hm.
  assert (A : forallb (fun h' => forallb (fun m' =>
            match parse_times (shown_hours_minutes h' m'),
                  parse_times (shown_minutes m'),
                  parse_times (shown_hours h') with
            | Ret a, Ret b, Ret c =>
                (a =? 60 * Z.of_nat h' + Z.of_nat m') && (b =? Z.of_nat m')
                && (c =? 60 * Z.of_nat h')
            | _, _, _ => false
            end) (seq 0 100)) (seq 1 9) = true) by (vm_compute; reflexivity).
  rewrite forallb_forall in A.
  assert (Ih : In h (seq 1 9)) by (apply in_seq; lia).
  specialize (A h Ih). rewrite forallb_forall in A.
  assert (Im : In m (seq 0 100)) by (apply in_seq; lia).
  specialize (A m Im).
  destruct (parse_times (shown_hours_minutes h m)) as [a| |]; try discriminate.
  destruct (parse_times (shown_minutes m)) as [b| |]; try discriminate.
  destruct (parse_times (shown_hours h)) as [c| |]; try discriminate.
  apply andb_prop in A as [A Hc]. apply andb_prop in A as [Ha Hb].
  apply Z.eqb_eq in Ha, Hb, Hc. subst. repeat split.
Qed.

(** C3: the examples of the docstring, written without a space before the
    unit, are not parsed: both patterns ask for the space, [re.search] finds
    nothing and [.group()] is applied to [None]. *)
Theorem parse_times_docstring_examples :
  parse_times "47m" = Raise AttributeError
  /\ parse_times "1h 12m" = Raise AttributeError
  /\ parse_times "2h" = Raise AttributeError.
Proof. repeat split; vm_compute; reflexivity. Qed.

(** When neither pattern matches, the outcome depends only on the letters. *)
Lemma parse_times_no_match (timestr : string) :
  search hour_re timestr = None ->
  search minute_re timestr = None ->
  parse_times timestr =
    if str_in "h" timestr || str_in "m" timestr then Raise AttributeError else Ret 0.
Proof.
  intros Hh Hm. unfold parse_times. rewrite Hh, Hm.
  destruct (str_in "h" timestr); simpl; [reflexivity|].
  destruct (str_in "m" timestr); reflexivity.
Qed.

(** C4, as the code has it: a text in which neither pattern matches gives 0
    when it holds neither the letter [h] nor the letter [m], and the empty
    text is one of these; when it holds one of the letters, [parse_times]
    fails, with [AttributeError]. *)
Theorem parse_times_neither_pattern (timestr : string) :
  search hour_re timestr = None ->
  search minute_re timestr = None ->
  (str_in "h" timestr = false -> str_in "m" timestr = false ->
     parse_times timestr = Ret 0)
  /\ (str_in "h" timestr = true \/ str_in "m" timestr = true ->
     parse_times timestr = Raise AttributeError).
Proof.
  intros Hh Hm. rewrite (parse_times_no_match _ Hh Hm). split.
  - intros -> ->. reflexivity.
  - intros [-> | ->]; [reflexivity | rewrite orb_true_r; reflexivity].
Qed.

Lemma parse_times_neither_pattern_witness :
  parse_times "" = Ret 0 /\ parse_times "about an hour" = Raise AttributeError.
Proof.
  split.
  - apply (proj1 (@parse_times_neither_pattern "" eq_refl eq_refl)); reflexivity.
  - apply (proj2 (@parse_times_neither_pattern "about an hour" eq_refl eq_refl)).
    left. reflexivity.
Defined.

(** The empty text is parsed to 0: nothing is raised. *)
Lemma parse_times_empty_is_0 :
  parse_times "" = Ret 0 /\ ~ (exists e, parse_times "" = Raise e).
Proof.
  split; [reflexivity|]. intros [e H]. discriminate H.
Qed.

End DurationFacts.

(** ** The recorder *)

Module DbFacts.

Import Db Scenarios.
Open Scope list_scope.
Open Scope Z_scope.

(** *** The checking loop *)

Lemma isinstance_object (v : pyval) : isinstance v c_object = true.
Proof. destruct v; reflexivity. Qed.

(** A field that fails its check ends the loop with [Failed]: the positions
    before it exist, so no [IndexError] comes first. *)
Lemma check_from_failed (classes : list pyclass) (data : tuple) :
  forall k i v c,
    nth_error data (k + i) = Some v ->
    nth_error classes i = Some c ->
    isinstance v c = false ->
    check_from k classes data = Failed.
Proof.
  induction classes as [|c0 classes IH]; intros k i v c Hv Hc Hf.
  - destruct i; discriminate.
  - simpl. destruct i as [|i].
    + rewrite Nat.add_0_r in Hv. rewrite Hv. injection Hc as ->. rewrite Hf. reflexivity.
    + destruct (nth_error data k) as [v0|] eqn:E.
      * destruct (isinstance v0 c0); [|reflexivity].
        apply (IH (S k) i v c); [|assumption|assumption].
        rewrite <- Hv. f_equal. lia.
      * apply nth_error_None in E.
        assert (nth_error data (k + S i) <> None) by congruence.
        apply nth_error_Some in H. lia.
Qed.

Lemma check_from_failed_inv (classes : list pyclass) (data : tuple) :
  forall k, check_from k classes data = Failed ->
  exists i v c,
    nth_error data (k + i) = Some v /\ nth_error classes i = Some c /\
    isinstance v c = false.
Proof.
  induction classes as [|c0 classes IH]; intros k H; simpl in H.
  - discriminate.
  - destruct (nth_error data k) as [v0|] eqn:E; [|discriminate].
    destruct (isinstance v0 c0) eqn:Ei.
    + destruct (IH _ H) as (i & v & c & Hv & Hc & Hf).
      exists (S i), v, c. repeat split; try assumption.
      rewrite <- Hv. f_equal. lia.
    + exists O, v0, c0. rewrite Nat.add_0_r. auto.
Qed.

Lemma check_from_passed (classes : list pyclass) (data : tuple) :
  forall k, check_from k classes data = Passed <->
  (forall i c, nth_error classes i = Some c ->
     exists v, nth_error data (k + i) = Some v /\ isinstance v c = true).
Proof.
  induction classes as [|c0 classes IH]; intro k; simpl.
  - split; [|reflexivity]. intros _ i c H. destruct i; discriminate.
  - split.
    + intros H i c Hc.
      destruct (nth_error data k) as [v0|] eqn:E; [|discriminate].
      destruct (isinstance v0 c0) eqn:Ei; [|discriminate].
      destruct i as [|i].
      * injection Hc as <-. exists v0. rewrite Nat.add_0_r. auto.
      * destruct (proj1 (IH (S k)) H i c Hc) as (v & Hv & Hi).
        exists v. split; [|assumption]. rewrite <- Hv. f_equal. lia.
    + intro H.
      destruct (H O c0 eq_refl) as (v0 & Hv0 & Hi0).
      rewrite Nat.add_0_r in Hv0. rewrite Hv0, Hi0.
      apply IH. intros i c Hc.
      destruct (H (S i) c Hc) as (v & Hv & Hi).
      exists v. split; [|assumption]. rewrite <- Hv. f_equal. lia.
Qed.

(** *** One call *)

Lemma record_failed (d : database) (data : tuple) :
  check data = Failed -> record d data = (Ret PyNone, print d "failed!").
Proof. unfold record. intros ->. reflexivity. Qed.

Lemma record_below (d : database) (data : tuple) :
  check data = Passed ->
  Z.of_nat (List.length (data_buffer d)) + 1 < buffer_size d ->
  record d data = (Ret PyNone, with_buffer d (data_buffer d ++ [data])).
Proof.
  unfold record. intros -> H. simpl.
  rewrite length_app. simpl.
  destruct (Z.geb_spec (Z.of_nat (List.length (data_buffer d) + 1)) (buffer_size d));
    [lia | reflexivity].
Qed.

(** [executemany] returns exactly on the buffers that it can bind. *)
Lemma executemany_binds (rows : list tuple) :
  forallb binds rows = true -> executemany rows = Ret tt.
Proof.
  induction rows as [|t rows IH]; simpl; [reflexivity|].
  unfold binds at 1. destruct (bind_error t); simpl; [discriminate | exact IH].
Qed.

Lemma executemany_raises (rows : list tuple) :
  forallb binds rows = false ->
  exists e, executemany rows = Raise e /\ (e = ProgrammingError \/ e = OverflowError).
Proof.
  induction rows as [|t rows IH]; simpl; [discriminate|].
  unfold binds at 1. unfold bind_error.
  destruct (negb (Nat.eqb (List.length t) (List.length fields))); simpl.
  - intros _. eauto.
  - destruct (negb (forallb storable t)); simpl; [intros _; eauto | exact IH].
Qed.

Lemma record_reached (d : database) (data : tuple) :
  check data = Passed ->
  buffer_size d <= Z.of_nat (List.length (data_buffer d)) + 1 ->
  forallb binds (data_buffer d ++ [data]) = true ->
  record d data =
    (Ret PyNone,
     mkDb (buffer_size d) [] (commits d ++ [data_buffer d ++ [data]]) (stdout d)).
Proof.
  unfold record. intros -> H Hb. simpl.
  rewrite length_app. simpl.
  destruct (Z.geb_spec (Z.of_nat (List.length (data_buffer d) + 1)) (buffer_size d));
    [|lia].
  unfold flush. simpl. rewrite (@executemany_binds _ Hb). reflexivity.
Qed.

(** At the threshold with a row in the buffer that cannot be bound, the
    exception of [executemany] leaves [record]: nothing is committed and the
    buffer keeps all its rows, the new one as well. *)
Lemma record_unbound (d : database) (data : tuple) :
  check data = Passed ->
  buffer_size d <= Z.of_nat (List.length (data_buffer d)) + 1 ->
  forallb binds (data_buffer d ++ [data]) = false ->
  exists e,
    record d data = (Raise e, with_buffer d (data_buffer d ++ [data]))
    /\ (e = ProgrammingError \/ e = OverflowError).
Proof.
  unfold record. intros -> H Hb. simpl.
  rewrite length_app. simpl.
  destruct (Z.geb_spec (Z.of_nat (List.length (data_buffer d) + 1)) (buffer_size d));
    [|lia].
  unfold flush. simpl.
  destruct (@executemany_raises _ Hb) as (e & -> & He).
  exists e. split; [reflexivity | exact He].
Qed.

(** *** A sequence of calls *)

Lemma forallb_binds_app (b : list tuple) (data : tuple) :
  forallb binds b = true -> table_row data -> forallb binds (b ++ [data]) = true.
Proof.
  intros Hb [_ Hd]. rewrite forallb_app, Hb. simpl. rewrite Hd. reflexivity.
Qed.

(** What a sequence of rows of the table does to an instance whose buffer is
    below the threshold: the batches committed and the buffer left hold the
    rows in order, every batch has the size of the threshold, and the buffer
    stays below it. *)
Lemma record_all_batches (T : Z) (rows : list tuple) :
  1 <= T ->
  Forall table_row rows ->
  forall d,
    buffer_size d = T ->
    Z.of_nat (List.length (data_buffer d)) < T ->
    forallb binds (data_buffer d) = true ->
    exists batches b,
      record_all d rows = (Ret tt, mkDb T b (commits d ++ batches) (stdout d))
      /\ List.concat batches ++ b = data_buffer d ++ rows
      /\ Forall (fun batch => Z.of_nat (List.length batch) = T) batches
      /\ Z.of_nat (List.length b) < T
      /\ forallb binds b = true.
Proof.
  intros HT Hrows. induction Hrows as [|data rows Hd Hrows IH]; intros d HB Hlen Hbinds.
  - exists [], (data_buffer d). simpl. rewrite !app_nil_r.
    destruct d; simpl in *; subst. repeat split; auto.
  - simpl.
    destruct (Z_lt_le_dec (Z.of_nat (List.length (data_buffer d)) + 1) (buffer_size d))
      as [Hlt | Hge].
    + rewrite record_below by (try apply Hd; assumption).
      destruct (IH (with_buffer d (data_buffer d ++ [data]))) as (batches & b & E & Hc & Hf & Hl & Hb).
      * exact HB.
      * simpl. rewrite length_app. simpl. lia.
      * simpl. apply forallb_binds_app; assumption.
      * exists batches, b. simpl in *. rewrite E.
        repeat split; try assumption.
        rewrite Hc, <- app_assoc. reflexivity.
    + rewrite record_reached
        by (try apply Hd; try assumption; apply forallb_binds_app; assumption).
      destruct (IH (mkDb (buffer_size d) [] (commits d ++ [data_buffer d ++ [data]]) (stdout d)))
        as (batches & b & E & Hc & Hf & Hl & Hb).
      * exact HB.
      * simpl. lia.
      * reflexivity.
      * exists ((data_buffer d ++ [data]) :: batches), b. simpl in *.
        rewrite E, <- app_assoc. simpl.
        repeat split; try assumption.
        -- rewrite <- app_assoc, Hc. simpl. rewrite <- app_assoc. reflexivity.
        -- constructor; [|assumption]. rewrite length_app. simpl. lia.
Qed.

Lemma length_concat_batches (n : nat) (batches : list (list tuple)) :
  Forall (fun batch => List.length batch = n) batches ->
  List.length (List.concat batches) = (n * List.length batches)%nat.
Proof.
  induction 1 as [|batch batches Hb _ IH]; simpl.
  - lia.
  - rewrite length_app, IH, Hb. lia.
Qed.

(** With a threshold below one, every row of the table is committed at once,
    as a batch of its own. *)
Lemma record_without_threshold (d : database) (data : tuple) :
  buffer_size d <= 0 -> data_buffer d = [] -> table_row data ->
  record d data = (Ret PyNone, mkDb (buffer_size d) [] (commits d ++ [[data]]) (stdout d)).
Proof.
  intros HT He Hd. rewrite record_reached.
  - rewrite He. reflexivity.
  - apply Hd.
  - lia.
  - rewrite He. simpl. rewrite (proj2 Hd). reflexivity.
Qed.

Lemma record_all_without_threshold (rows : list tuple) :
  Forall table_row rows ->
  forall d,
    buffer_size d <= 0 -> data_buffer d = [] ->
    record_all d rows
    = (Ret tt,
       mkDb (buffer_size d) [] (commits d ++ map (fun r => [r]) rows) (stdout d)).
Proof.
  induction 1 as [|data rows Hd _ IH]; intros d HT He.
  - simpl. rewrite app_nil_r. destruct d; simpl in *; subst. reflexivity.
  - simpl. rewrite (@record_without_threshold d data HT He Hd).
    rewrite IH by (simpl; auto; lia). simpl.
    rewrite <- app_assoc. reflexivity.
Qed.

(** C2, as the code has it: the rows are rows that pass the checks and hold
    exactly eleven values that sqlite3 can store, and the buffer is empty at
    the start.  With a threshold of at least one row, after any sequence
    [rows] of such rows the buffer is below the threshold; the next row [data]
    then either makes the buffer one row longer and writes nothing, or brings
    it to the threshold: the rows of the buffer, exactly as many as the
    threshold, are committed as one batch and the buffer is empty again.  The
    buffer holds [length rows mod threshold] rows and [length rows /
    threshold] batches have been committed.  With a threshold below one,
    every row is committed by its own call, as a batch of one row, and the
    buffer is empty after each call. *)
Theorem record_buffers_until_threshold (T : Z) (d0 : database)
        (rows : list tuple) (data : tuple) :
  buffer_size d0 = T ->
  data_buffer d0 = [] ->
  Forall table_row (rows ++ [data]) ->
  (1 <= T ->
   exists d,
     record_all d0 rows = (Ret tt, d)
     /\ Z.of_nat (List.length (data_buffer d)) = Z.of_nat (List.length rows) mod T
     /\ Z.of_nat (List.length (commits d))
        = Z.of_nat (List.length (commits d0)) + Z.of_nat (List.length rows) / T
     /\ (Z.of_nat (List.length (data_buffer d)) + 1 < T ->
           record d data = (Ret PyNone, with_buffer d (data_buffer d ++ [data])))
     /\ (Z.of_nat (List.length (data_buffer d)) + 1 >= T ->
           record d data
             = (Ret PyNone, mkDb T [] (commits d ++ [data_buffer d ++ [data]]) (stdout d))
           /\ Z.of_nat (List.length (data_buffer d ++ [data])) = T))
  /\ (T <= 0 ->
      exists d,
        record_all d0 rows = (Ret tt, d)
        /\ data_buffer d = []
        /\ commits d = commits d0 ++ map (fun r => [r]) rows
        /\ record d data = (Ret PyNone, mkDb T [] (commits d ++ [[data]]) (stdout d))).
Proof.
  intros HB Hempty Hall.
  apply Forall_app in Hall as [Hrows Hdata].
  apply Forall_cons_iff in Hdata as [Hdata _].
  split.
  - intro HT.
    destruct (@record_all_batches T rows HT Hrows d0 HB)
      as (batches & b & E & Hc & Hf & Hl & Hb).
    { rewrite Hempty. simpl. lia. }
    { rewrite Hempty. reflexivity. }
    rewrite Hempty in Hc. simpl in Hc.
    exists (mkDb T b (commits d0 ++ batches) (stdout d0)). simpl.
    assert (Hn : Z.of_nat (List.length rows)
                 = T * Z.of_nat (List.length batches) + Z.of_nat (List.length b)).
    { rewrite <- Hc, length_app.
      rewrite (@length_concat_batches (Z.to_nat T)).
      - lia.
      - eapply Forall_impl; [|exact Hf]. simpl. intros; lia. }
    split; [exact E|].
    split; [apply (Z.mod_unique_pos _ _ (Z.of_nat (List.length batches))); lia|].
    split.
    { rewrite length_app, Nat2Z.inj_add. f_equal.
      apply (Z.div_unique_pos _ _ _ (Z.of_nat (List.length b))); lia. }
    split.
    + intro Hlt. apply record_below; [apply Hdata | exact Hlt].
    + intro Hge. split.
      * apply (@record_reached (mkDb T b (commits d0 ++ batches) (stdout d0)) data);
          [apply Hdata | simpl; lia | simpl; apply forallb_binds_app; assumption].
      * rewrite length_app. simpl. lia.
  - intro HT.
    exists (mkDb T [] (commits d0 ++ map (fun r => [r]) rows) (stdout d0)).
    split.
    + rewrite (@record_all_without_threshold rows Hrows d0) by (try lia; assumption).
      rewrite HB. reflexivity.
    + split; [reflexivity|]. split; [reflexivity|].
      apply (@record_without_threshold
               (mkDb T [] (commits d0 ++ map (fun r => [r]) rows) (stdout d0)) data);
        [simpl; lia | reflexivity | exact Hdata].
Qed.

Lemma record_buffers_until_threshold_witness :
  (exists d,
     record_all (open 3) [good_row; good_row] = (Ret tt, d)
     /\ data_buffer d = [good_row; good_row]
     /\ commits d = []
     /\ record d good_row
        = (Ret PyNone, mkDb 3 [] [[good_row; good_row; good_row]] []))
  /\ (exists d,
        record_all (open 0) [good_row; good_row] = (Ret tt, d)
        /\ data_buffer d = []
        /\ commits d = [[good_row]; [good_row]]).
Proof.
  assert (Hrec : table_row good_row) by (split; reflexivity).
  assert (Hall : Forall table_row ([good_row; good_row] ++ [good_row]))
    by (repeat constructor; apply Hrec).
  split.
  - destruct (proj1 (@record_buffers_until_threshold 3 (open 3) [good_row; good_row]
                       good_row eq_refl eq_refl Hall))
      as (d & E & _ & _ & _ & Hfull); [lia|].
    exists d. split; [exact E|].
    assert (Ed : d = mkDb 3 [good_row; good_row] [] []).
    { vm_compute in E. injection E as <-. reflexivity. }
    subst d. repeat split; reflexivity.
  - destruct (proj2 (@record_buffers_until_threshold 0 (open 0) [good_row; good_row]
                       good_row eq_refl eq_refl Hall))
      as (d & E & Hb & Hc & _); [lia|].
    exists d. split; [exact E|]. split; [exact Hb | exact Hc].
Defined.

(** The claim of C2 fails on three accepted rows.  With a threshold of 0
    the first row is committed by its own call: the batch written has one
    row, not as many rows as the threshold.  A row of twelve values and a row
    with an integer beyond 64 bits pass the checks and bring the buffer to a
    threshold of 1, and there the insert raises: no row is written and the
    buffer is not emptied. *)
Lemma record_threshold_not_kept :
  (check good_row = Passed
   /\ record (open 0) good_row = (Ret PyNone, mkDb 0 [] [[good_row]] [])
   /\ Z.of_nat (List.length [good_row]) <> buffer_size (open 0))
  /\ (check Samples.long_row = Passed
      /\ Z.of_nat (List.length [Samples.long_row]) = buffer_size (open 1)
      /\ record (open 1) Samples.long_row
         = (Raise ProgrammingError, mkDb 1 [Samples.long_row] [] []))
  /\ (check Samples.big_row = Passed
      /\ Z.of_nat (List.length [Samples.big_row]) = buffer_size (open 1)
      /\ record (open 1) Samples.big_row
         = (Raise OverflowError, mkDb 1 [Samples.big_row] [] [])).
Proof.
  repeat split; try reflexivity. simpl. discriminate.
Qed.

(** *** What a call returns *)

Lemma check_passed_iff (data : tuple) :
  check data = Passed <->
  (forall idx c, nth_error checked idx = Some c ->
     exists v, nth_error data idx = Some v /\ isinstance v c = true).
Proof. apply (check_from_passed checked data 0). Qed.

(** C6, as the code has it: [record] returns [None] whenever it returns, for
    a rejected row as for a buffered one.  A row in which some field fails
    its check makes it print ["failed!"] with the buffer and the table
    unchanged.  A row whose eleven fields pass is appended to the buffer.
    Below the threshold that is all.  At the threshold the buffer is
    committed and emptied when each of its rows holds exactly eleven values
    that sqlite3 can store; otherwise the insert raises [ProgrammingError] or
    [OverflowError], nothing is committed and the buffer keeps its rows, the
    new one as well. *)
Theorem record_returns_none (d : database) (data : tuple) :
  (forall idx v c,
     nth_error data idx = Some v -> nth_error checked idx = Some c ->
     isinstance v c = false ->
     exists d', record d data = (Ret PyNone, d')
       /\ data_buffer d' = data_buffer d /\ commits d' = commits d
       /\ stdout d' = (stdout d ++ ["failed!"%string])%list)
  /\ ((forall idx c, nth_error checked idx = Some c ->
         exists v, nth_error data idx = Some v /\ isinstance v c = true) ->
      (Z.of_nat (List.length (data_buffer d)) + 1 < buffer_size d ->
         record d data = (Ret PyNone, with_buffer d (data_buffer d ++ [data])))
      /\ (buffer_size d <= Z.of_nat (List.length (data_buffer d)) + 1 ->
          forallb binds (data_buffer d ++ [data]) = true ->
          record d data
            = (Ret PyNone,
               mkDb (buffer_size d) [] (commits d ++ [data_buffer d ++ [data]]) (stdout d)))
      /\ (buffer_size d <= Z.of_nat (List.length (data_buffer d)) + 1 ->
          forallb binds (data_buffer d ++ [data]) = false ->
          exists e,
            record d data = (Raise e, with_buffer d (data_buffer d ++ [data]))
            /\ (e = ProgrammingError \/ e = OverflowError)))
  /\ (forall v d', record d data = (Ret v, d') -> v = PyNone).
Proof.
  split; [|split].
  - intros idx v c Hv Hc Hf.
    exists (print d "failed!"). split; [|repeat split].
    apply record_failed. exact (check_from_failed checked data 0 idx Hv Hc Hf).
  - intro Hall. apply check_passed_iff in Hall. split; [|split].
    + apply record_below. exact Hall.
    + apply record_reached. exact Hall.
    + apply record_unbound. exact Hall.
  - intros v d'. unfold record.
    destruct (check data); try discriminate.
    + destruct (_ >=? _).
      * destruct (flush _) as [[[]| |] d2]; try discriminate. congruence.
      * congruence.
    + congruence.
Qed.

Lemma record_returns_none_witness :
  (exists d', record (open 100) bad_row = (Ret PyNone, d')
     /\ data_buffer d' = [] /\ commits d' = [] /\ stdout d' = ["failed!"%string])
  /\ record (open 100) good_row = (Ret PyNone, with_buffer (open 100) [good_row])
  /\ record (open 1) good_row = (Ret PyNone, mkDb 1 [] [[good_row]] [])
  /\ exists e,
       record (open 1) Samples.big_row
       = (Raise e, with_buffer (open 1) [Samples.big_row])
       /\ (e = ProgrammingError \/ e = OverflowError).
Proof.
  split; [|split; [|split]].
  - exact (proj1 (record_returns_none (open 100) bad_row) 1%nat (PyStr "north") c_float
             eq_refl eq_refl eq_refl).
  - apply (proj1 (proj2 (record_returns_none (open 100) good_row))).
    + apply check_passed_iff. reflexivity.
    + simpl. lia.
  - apply (proj1 (proj2 (proj1 (proj2 (record_returns_none (open 1) good_row))
                           (proj1 (check_passed_iff good_row) eq_refl)))).
    + simpl. lia.
    + reflexivity.
  - apply (proj2 (proj2 (proj1 (proj2 (record_returns_none (open 1) Samples.big_row))
                           (proj1 (check_passed_iff Samples.big_row) eq_refl)))).
    + simpl. lia.
    + reflexivity.
Defined.

(** A row that passes every check is buffered and the call returns [None],
    which is neither [True] nor [False]; so does the call that rejects. *)
Lemma record_good_row_not_true :
  check good_row = Passed
  /\ record (open 100) good_row = (Ret PyNone, with_buffer (open 100) [good_row])
  /\ fst (record (open 100) good_row) <> Ret (PyBool true)
  /\ check bad_row = Failed
  /\ fst (record (open 100) bad_row) <> Ret (PyBool false).
Proof. repeat split; try reflexivity; vm_compute; discriminate. Qed.

(** *** The text positions *)

Lemma check_put_text (data : tuple) (v0 v4 v10 : pyval) :
  check (put 0 v0 (put 4 v4 (put 10 v10 data))) = check data.
Proof.
  unfold check, checked.
  do 11 (destruct data as [|? data]; [reflexivity|]).
  reflexivity.
Qed.

(** C10: the values at the positions of [arrive_add], [depart_add] and
    [timestamp] (0, 4 and 10) never decide the check: they are tested against
    [object], which every value is an instance of, also [None] and values
    that are no text; putting any values there leaves the verdict as it was,
    and a rejection always comes from a value at one of the positions 1, 2,
    3, 5, 6, 7, 8, 9. *)
Theorem text_fields_never_reject (data : tuple) (v0 v4 v10 : pyval) :
  Forall (fun idx => nth_error checked idx = Some c_object) [0; 4; 10]%nat
  /\ (forall v, isinstance v c_object = true)
  /\ check (put 0 v0 (put 4 v4 (put 10 v10 data))) = check data
  /\ (check data = Failed ->
      exists idx v c,
        In idx [1; 2; 3; 5; 6; 7; 8; 9]%nat
        /\ nth_error data idx = Some v /\ nth_error checked idx = Some c
        /\ isinstance v c = false).
Proof.
  split; [repeat constructor|].
  split; [exact isinstance_object|].
  split; [apply check_put_text|].
  intro H. destruct (check_from_failed_inv checked data 0 H) as (i & v & c & Hv & Hc & Hf).
  simpl in Hv. exists i, v, c. repeat split; try assumption.
  do 11 (destruct i as [|i];
         [ first [ injection Hc as <-; rewrite isinstance_object in Hf; discriminate
                 | simpl; tauto ] |]).
  destruct i; discriminate.
Qed.

Lemma text_fields_never_reject_witness :
  check odd_text_row = Passed
  /\ check (put 0 PyNone (put 4 (PyInt 7) (put 10 (PyBool true) bad_row))) = Failed
  /\ exists idx v c,
       In idx [1; 2; 3; 5; 6; 7; 8; 9]%nat
       /\ nth_error bad_row idx = Some v /\ nth_error checked idx = Some c
       /\ isinstance v c = false.
Proof.
  split; [reflexivity|].
  destruct (text_fields_never_reject bad_row PyNone (PyInt 7) (PyBool true))
    as (_ & _ & Hput & Hrej).
  split.
  - rewrite Hput. reflexivity.
  - apply Hrej. reflexivity.
Defined.

End DbFacts.

(** ** The collection cycle *)

Module TripFacts.

Import Geo Trip Db Scenarios.
Open Scope list_scope.
Open Scope Z_scope.

(** *** Stepping through a cycle *)

Lemma bind_Ret {A B} (m : M A) (k : A -> M B) (f f' : frame) (b : B) :
  bind m k f = (Ret b, f') ->
  exists a f1, m f = (Ret a, f1) /\ k a f1 = (Ret b, f').
Proof.
  unfold bind. destruct (m f) as [[a| |] f1]; try discriminate. eauto.
Qed.

Lemma bind_Raise {A B} (m : M A) (k : A -> M B) (f f1 : frame) (e : exn) :
  m f = (Raise e, f1) -> bind m k f = (Raise e, f1).
Proof. unfold bind. intros ->. reflexivity. Qed.

Lemma bind_step {A B} (m : M A) (k : A -> M B) (f f1 : frame) (a : A) :
  m f = (Ret a, f1) -> bind m k f = k a f1.
Proof. unfold bind. intros ->. reflexivity. Qed.

(** The last step of [run] is the filter. *)
Lemma run_Ret (self : scraper) (w : world) (f f' : frame) (rows : list row) :
  run self w f = (Ret rows, f') -> rows = full_rows f'.
Proof.
  unfold run. intro H.
  repeat (apply bind_Ret in H; destruct H as (? & ? & _ & H)).
  injection H as <- <-. reflexivity.
Qed.

(** A row without nulls is a row of the table for the recorder. *)
Lemma full_row_values (r : row) :
  isnull_sum r = 0%nat -> trip_record (values r) /\ ~ In PyNone (values r).
Proof.
  destruct r as [[?|] [?|] [?|] [?|] [?|] [?|] [?|] [?|] [?|] [?|] [?|]];
    unfold isnull_sum; simpl; try discriminate.
  intros _. split; [split; reflexivity|].
  intro H. repeat (destruct H as [H | H]; [discriminate|]). exact H.
Qed.

(** C5: the rows that a cycle returns are the rows of the frame without any
    null: a row of the frame with a null in one of its eleven fields is not
    returned, every returned row has all its fields, and its values pass the
    checks of the recorder with no [None] among them. *)
Theorem run_excludes_null_rows (self : scraper) (w : world) (f f' : frame)
        (rows : list row) :
  run self w f = (Ret rows, f') ->
  (forall r, In r rows <-> In r [row0 f'; row1 f'] /\ isnull_sum r = 0%nat)
  /\ Forall (fun r => isnull_sum r = 0%nat
                      /\ trip_record (values r) /\ ~ In PyNone (values r)) rows.
Proof.
  intro H. apply run_Ret in H. subst rows.
  assert (Hin : forall r, In r (full_rows f') <->
                          In r [row0 f'; row1 f'] /\ isnull_sum r = 0%nat).
  { intro r. unfold full_rows. rewrite filter_In, Nat.eqb_eq. reflexivity. }
  split; [exact Hin|].
  apply Forall_forall. intros r Hr. apply Hin in Hr as [_ Hr].
  split; [exact Hr | apply full_row_values; exact Hr].
Qed.

Lemma run_excludes_null_rows_witness :
  let f' := snd (run ms world_no_walk timesdf) in
  run ms world_no_walk timesdf = (Ret [row0 f'], f')
  /\ isnull_sum (row0 f') = 0%nat
  /\ walk (row1 f') = None
  /\ ~ In (row1 f') [row0 f'].
Proof.
  intro f'.
  assert (E : run ms world_no_walk timesdf = (Ret [row0 f'], f'))
    by (vm_compute; reflexivity).
  destruct (run_excludes_null_rows ms world_no_walk timesdf E) as [Hin _].
  split; [exact E|].
  split; [apply (Hin (row0 f')); left; reflexivity|].
  split; [vm_compute; reflexivity|].
  intro H. apply Hin in H as [_ H]. vm_compute in H. discriminate.
Defined.

(** *** The geocoder *)

Lemma get_address_Raise (w : world) (p : point) (e : exn) :
  reverse w p = Raise e -> get_address w p = Raise e.
Proof. unfold get_address. intros ->. reflexivity. Qed.

(** C7, as the code has it: [get_address] and [run] hold no handler, so an
    exception of the geocoder for either sampled coordinate leaves [run] as
    that exception: the cycle stops there and returns no rows. *)
Theorem run_geocoder_failure (self : scraper) (w : world) (f : frame)
        (p1 p2 : point) (rest : list Q) (e : exn) :
  sample_locations (sfPath self) (lims self) (rnd w) = Ret (p1, p2, rest) ->
  reverse w p1 = Raise e
  \/ ((exists address, reverse w p1 = Ret (Some address)) /\ reverse w p2 = Raise e) ->
  fst (run self w f) = Raise e
  /\ forall rows, fst (run self w f) <> Ret rows.
Proof.
  intros Hs Hrev.
  assert (H : fst (run self w f) = Raise e).
  { unfold run, bind, call at 1. rewrite Hs. simpl.
    unfold bind, call, loc_set, get_address. simpl.
    destruct Hrev as [-> | [[address ->] ->]]; reflexivity. }
  split; [exact H|]. intros rows. rewrite H. discriminate.
Qed.

Lemma run_geocoder_failure_witness :
  fst (run ms world_geocoder_down timesdf) = Raise GeocoderTimedOut
  /\ forall rows, fst (run ms world_geocoder_down timesdf) <> Ret rows.
Proof.
  assert (Hs : exists p1 p2 rest,
             sample_locations (sfPath ms) (lims ms) (rnd world_geocoder_down)
             = Ret (p1, p2, rest)).
  { vm_compute. eauto. }
  destruct Hs as (p1 & p2 & rest & Hs).
  exact (run_geocoder_failure ms world_geocoder_down timesdf Hs (or_introl eq_refl)).
Defined.

(** The geocoder times out: the cycle ends with the exception, no address is
    put in its place and no row comes back. *)
Lemma run_geocoder_down_raises :
  fst (run ms world_geocoder_down timesdf) = Raise GeocoderTimedOut
  /\ ~ (exists rows, fst (run ms world_geocoder_down timesdf) = Ret rows)
  /\ arrive_add (row0 (snd (run ms world_geocoder_down timesdf))) = None.
Proof.
  split; [vm_compute; reflexivity|]. split.
  - intros [rows H]. vm_compute in H. discriminate.
  - vm_compute. reflexivity.
Qed.

(** *** What [get_times] can return *)

Lemma dict_set_keys (k : dir_key) (v : option Z) (d : dict) (k' : dir_key) :
  In k' (map fst (dict_set k v d)) <-> k' = k \/ In k' (map fst d).
Proof.
  induction d as [|[k0 v0] d IH]; simpl.
  - intuition congruence.
  - destruct (dir_key_eqb k k0) eqn:E; simpl.
    + assert (k = k0) by (destruct k, k0; (reflexivity || discriminate)).
      subst. intuition congruence.
    + rewrite IH. intuition congruence.
Qed.

Lemma get_traveltimes_from_keys (pg : page) (keys : list dir_key) :
  forall acc d, get_traveltimes_from pg keys acc = Ret d ->
  forall k, In k keys \/ In k (map fst acc) -> In k (map fst d).
Proof.
  induction keys as [|key keys IH]; intros acc d H k Hk; simpl in H.
  - injection H as <-. destruct Hk as [[] | Hk]. exact Hk.
  - destruct (pg key) as [text| |]; try discriminate. simpl in H.
    destruct (match text with
              | [] => Ret None
              | t0 :: _ => obind (Duration.parse_times t0) (fun n => Ret (Some n))
              end) as [v| |]; try discriminate.
    simpl in H. apply (IH _ _ H).
    rewrite dict_set_keys. simpl in Hk. intuition congruence.
Qed.

(** A pass that returns has an entry for each of the four keys. *)
Lemma get_traveltimes_all_keys (pg : page) (d : dict) :
  get_traveltimes pg = Ret d -> all_keys d.
Proof.
  intros H k. apply (get_traveltimes_from_keys pg _ _ H).
  left. destruct k; simpl; tauto.
Qed.

Lemma all_keys_truthy (d : dict) : all_keys d -> truthy (Some d) = true.
Proof.
  intro H. destruct d; [destruct (H k_driving)| reflexivity].
Qed.

Lemma get_times_loop_eq (wait : Z) (gtt : option dict) (wttm : Z)
      (attempts : list (page * Z)) :
  get_times_loop wait gtt wttm attempts =
    if negb (truthy gtt) && (wttm <=? wait) then
      match attempts with
      | [] => Diverge
      | (pg, us) :: attempts' =>
          match get_traveltimes pg with
          | Ret d => get_times_loop wait (Some d) us attempts'
          | Raise _ => get_times_loop wait gtt wttm attempts'
          | Diverge => Diverge
          end
      end
    else Ret gtt.
Proof. destruct attempts; reflexivity. Qed.

(** With a wait that is not negative the loop is left only by a pass that
    returned: what [get_times] returns is then a dict with the four keys. *)
Lemma get_times_all_keys (wait : Z) (attempts : list (page * Z)) (gt : option dict) :
  0 <= wait ->
  get_times wait attempts = Ret gt ->
  exists d, gt = Some d /\ all_keys d.
Proof.
  intros Hw. unfold get_times.
  assert (Hgo : negb (truthy None) && (0 <=? wait) = true)
    by (simpl; apply Z.leb_le; exact Hw).
  induction attempts as [|[pg us] attempts IH]; rewrite get_times_loop_eq, Hgo.
  - discriminate.
  - destruct (get_traveltimes pg) as [d| |] eqn:E; [|exact IH|discriminate].
    rewrite get_times_loop_eq.
    rewrite (all_keys_truthy (get_traveltimes_all_keys pg E)). simpl.
    intro H. injection H as <-. exists d. split; [reflexivity|].
    exact (get_traveltimes_all_keys pg E).
Qed.

(** With a negative wait the loop is not entered. *)
Lemma get_times_no_wait (wait : Z) (attempts : list (page * Z)) :
  wait < 0 -> get_times wait attempts = Ret None.
Proof.
  intro Hw. unfold get_times. rewrite get_times_loop_eq.
  destruct (Z.leb_spec 0 wait); [lia | reflexivity].
Qed.

(** *** What [store_times] writes *)

Lemma for_each_store_0 (d : dict) : forall f,
  for_each d (fun kv => loc_set 0 (set_key (fst kv) (snd kv))) f
  = (Ret tt, mkFrame (stored_row d (row0 f)) (row1 f)).
Proof.
  induction d as [|[k v] d IH]; intro f; simpl.
  - destruct f as [[] ?]; reflexivity.
  - unfold bind. simpl. rewrite IH. simpl.
    destruct k; reflexivity.
Qed.

Lemma for_each_store_1 (d : dict) : forall f,
  for_each d (fun kv => loc_set 1 (set_key (fst kv) (snd kv))) f
  = (Ret tt, mkFrame (row0 f) (stored_row d (row1 f))).
Proof.
  induction d as [|[k v] d IH]; intro f; simpl.
  - destruct f as [? []]; reflexivity.
  - unfold bind. simpl. rewrite IH. simpl.
    destruct k; reflexivity.
Qed.

Lemma stored_cell_written (k : dir_key) (d : dict) :
  In k (map fst d) -> forall x y, stored_cell k d x = stored_cell k d y.
Proof.
  induction d as [|[k0 v0] d IH]; simpl; intros H x y.
  - destruct H.
  - destruct (dir_key_eqb k k0) eqn:E; [reflexivity|].
    destruct H as [H | H].
    + subst. destruct k; discriminate.
    + assert (G : forall z, stored_cell k d z = stored_cell k d None)
        by (intro z; apply IH; exact H).
      rewrite (G x), (G y). reflexivity.
Qed.

Lemma store_times_0 (d : dict) (f : frame) :
  all_keys d ->
  store_times 0 (Some d) f = (Ret tt, mkFrame (stored_row d (row0 f)) (row1 f)).
Proof.
  intro H. unfold store_times. rewrite (all_keys_truthy H). apply for_each_store_0.
Qed.

Lemma store_times_1 (d : dict) (f : frame) :
  all_keys d ->
  store_times 1 (Some d) f = (Ret tt, mkFrame (row0 f) (stored_row d (row1 f))).
Proof.
  intro H. unfold store_times. rewrite (all_keys_truthy H). apply for_each_store_1.
Qed.

Lemma stored_row_written (d : dict) (r r' : row) :
  all_keys d ->
  arrive_add r = arrive_add r' -> arrive_lat r = arrive_lat r' ->
  arrive_lon r = arrive_lon r' -> depart_add r = depart_add r' ->
  depart_lat r = depart_lat r' -> depart_lon r = depart_lon r' ->
  timestamp r = timestamp r' ->
  stored_row d r = stored_row d r'.
Proof.
  intros H E1 E2 E3 E4 E5 E6 E7. unfold stored_row.
  rewrite E1, E2, E3, E4, E5, E6, E7.
  rewrite (stored_cell_written k_bicycle d (H k_bicycle) (bicycle r) (bicycle r')).
  rewrite (stored_cell_written k_driving d (H k_driving) (driving r) (driving r')).
  rewrite (stored_cell_written k_transit d (H k_transit) (transit r) (transit r')).
  rewrite (stored_cell_written k_walk d (H k_walk) (walk r) (walk r')).
  reflexivity.
Qed.

(** Rewriting rules that run a cycle one statement at a time. *)
Lemma bind_bind {A B C} (m : M A) (k1 : A -> M B) (k2 : B -> M C) (f : frame) :
  bind (bind m k1) k2 f = bind m (fun a => bind (k1 a) k2) f.
Proof. unfold bind. destruct (m f) as [[a| |] f1]; reflexivity. Qed.

Lemma bind_ret {A B} (a : A) (k : A -> M B) (f : frame) :
  bind (ret a) k f = k a f.
Proof. reflexivity. Qed.

Lemma bind_loc_set {B} (i : nat) (upd : row -> row) (k : unit -> M B) (f : frame) :
  bind (loc_set i upd) k f
  = k tt (match i with
          | O => mkFrame (upd (row0 f)) (row1 f)
          | _ => mkFrame (row0 f) (upd (row1 f))
          end).
Proof. unfold bind, loc_set. destruct i; reflexivity. Qed.

Lemma bind_loc_get {A B} (i : nat) (col : row -> A) (k : A -> M B) (f : frame) :
  bind (loc_get i col) k f
  = k (col (match i with O => row0 f | _ => row1 f end)) f.
Proof. unfold bind, loc_get. destruct i; reflexivity. Qed.

Lemma bind_call {A B} (o : outcome A) (k : A -> M B) (f : frame) :
  bind (call o) k f
  = match o with
    | Ret a => k a f
    | Raise e => (Raise e, f)
    | Diverge => (Diverge, f)
    end.
Proof. unfold bind, call. destruct o; reflexivity. Qed.

Lemma bind_store_times_0 {B} (d : dict) (k : unit -> M B) (f : frame) :
  all_keys d ->
  bind (store_times 0 (Some d)) k f = k tt (mkFrame (stored_row d (row0 f)) (row1 f)).
Proof. intro H. unfold bind. rewrite (store_times_0 f H). reflexivity. Qed.

Lemma bind_store_times_1 {B} (d : dict) (k : unit -> M B) (f : frame) :
  all_keys d ->
  bind (store_times 1 (Some d)) k f = k tt (mkFrame (row0 f) (stored_row d (row1 f))).
Proof. intro H. unfold bind. rewrite (store_times_1 f H). reflexivity. Qed.

Ltac run_writes :=
  repeat (cbn [for_each fst snd row0 row1];
          rewrite ?bind_bind, ?bind_ret, ?bind_loc_set, ?bind_loc_get, ?bind_call).

(** When the wait of the instance is not negative, a cycle writes each cell
    of the frame before the filter reads it: what [run] returns does not
    depend on the frame it starts from. *)
Lemma run_overwrites_frame (self : scraper) (w : world) (f1 f2 : frame) :
  0 <= wait_time self ->
  fst (run self w f1) = fst (run self w f2).
Proof.
  intro Hw. unfold run.
  run_writes.
  destruct (sample_locations (sfPath self) (lims self) (rnd w)) as [[[p1 p2] rest]| |];
    [|reflexivity|reflexivity].
  run_writes.
  destruct (get_address w p1) as [a1| |]; [|reflexivity|reflexivity].
  run_writes.
  destruct (get_address w p2) as [a2| |]; [|reflexivity|reflexivity].
  run_writes.
  destruct (searchboxes w) as [[]| |]; [|reflexivity|reflexivity].
  run_writes.
  destruct (get_times (wait_time self) (pages_out w)) as [gt1| |] eqn:G1;
    [|reflexivity|reflexivity].
  destruct (get_times_all_keys _ Hw G1) as (d1 & -> & K1).
  run_writes. rewrite !(bind_store_times_0 _ _ K1).
  run_writes.
  destruct (reverse_icon w) as [[]| |]; [|reflexivity|reflexivity].
  run_writes.
  destruct (get_times (wait_time self) (pages_back w)) as [gt2| |] eqn:G2;
    [|reflexivity|reflexivity].
  destruct (get_times_all_keys _ Hw G2) as (d2 & -> & K2).
  run_writes. rewrite !(bind_store_times_1 _ _ K2).
  cbn [fst snd row0 row1]. unfold full_rows. cbn [row0 row1].
  rewrite (@stored_row_written d1 _ (set_timestamp (now_out w)
             (set_add depart (Some a2) (set_latlon depart p2
               (set_add arrive (Some a1) (set_latlon arrive p1 (row0 f2)))))) K1);
    try reflexivity.
  rewrite (@stored_row_written d2 _ (set_timestamp (now_back w)
             (set_add depart (Some a1) (set_add arrive (Some a2)
               (set_latlon depart p1 (set_latlon arrive p2 (row1 f2)))))) K2);
    reflexivity.
Qed.

(** With a negative wait [get_times] returns [None], nothing is stored for
    the four keys, and their cells keep what the frame held before the cycle,
    however the cycle ends. *)
Lemma run_no_wait_keeps_times (self : scraper) (w : world) (f : frame) :
  wait_time self < 0 ->
  let f' := snd (run self w f) in
  (driving (row0 f'), transit (row0 f'), walk (row0 f'), bicycle (row0 f'))
    = (driving (row0 f), transit (row0 f), walk (row0 f), bicycle (row0 f))
  /\ (driving (row1 f'), transit (row1 f'), walk (row1 f'), bicycle (row1 f'))
    = (driving (row1 f), transit (row1 f), walk (row1 f), bicycle (row1 f)).
Proof.
  intro Hw. unfold run.
  rewrite !(get_times_no_wait _ Hw).
  run_writes.
  destruct (sample_locations (sfPath self) (lims self) (rnd w)) as [[[p1 p2] rest]| |];
    [|split; reflexivity|split; reflexivity].
  run_writes.
  destruct (get_address w p1) as [a1| |]; [|split; reflexivity|split; reflexivity].
  run_writes.
  destruct (get_address w p2) as [a2| |]; [|split; reflexivity|split; reflexivity].
  run_writes.
  destruct (searchboxes w) as [[]| |]; [|split; reflexivity|split; reflexivity].
  unfold store_times. cbn [truthy]. run_writes.
  destruct (reverse_icon w) as [[]| |]; split; reflexivity.
Qed.

(** C9: the frame is one object for all cycles.  A cycle on the default
    instance leaves its values in it; in the next cycle, run at other points
    by an instance whose [get_times] returns [None], the browser shows no
    duration at all, and yet both rows come back, with the durations of the
    cycle before.  From a fresh frame the same cycle returns no row. *)
Theorem run_carries_times_over :
  let cycle1 := run ms world_full timesdf in
  let cycle2 := run ms_no_wait world_blank (snd cycle1) in
  get_times (wait_time ms_no_wait) (pages_out world_blank) = Ret None
  /\ snd cycle1 <> timesdf
  /\ (exists r0 r1,
        fst cycle2 = Ret [r0; r1]
        /\ (driving r0, transit r0, walk r0, bicycle r0)
           = (Some 14, Some 41, Some 92, Some 27)
        /\ (driving r1, transit r1, walk r1, bicycle r1)
           = (Some 16, Some 38, Some 95, Some 31)
        /\ timestamp r0 = Some "2016-01-20 18:42:10"%string
        /\ timestamp r1 = Some "2016-01-20 18:42:17"%string)
  /\ fst (run ms_no_wait world_blank timesdf) = Ret [].
Proof.
  intros cycle1 cycle2.
  split; [reflexivity|].
  split.
  { intro H. apply (f_equal (fun f => timestamp (row0 f))) in H.
    vm_compute in H. discriminate. }
  split.
  - exists (row0 (snd cycle2)), (row1 (snd cycle2)).
    repeat split; vm_compute; reflexivity.
  - vm_compute. reflexivity.
Qed.

End TripFacts.

(** * Further properties *)

Unset Implicit Arguments.

(** ** More on the sampler *)

Module SamplerFacts.

Import Geo Scenarios.
Open Scope list_scope.
Open Scope Q_scope.

Section Loop.

Variable contains_point : point -> bool.
Variable self : bounds.

(** Induction on the values of the generator, two at a time. *)
Lemma pairs_ind (P : list Q -> Prop) :
  P [] -> (forall u, P [u]) ->
  (forall u1 u2 rnd, P rnd -> P (u1 :: u2 :: rnd)) ->
  forall rnd, P rnd.
Proof.
  intros H0 H1 H2.
  assert (H : forall rnd, P rnd /\ forall u, P (u :: rnd)).
  { induction rnd as [|v rnd [IHa IHb]].
    - split; [exact H0 | exact H1].
    - split; [apply IHb | intro u; apply H2; exact IHa]. }
  intro rnd. apply H.
Qed.

Lemma sample_sf_skips (before : list Q) :
  Nat.Even (List.length before) ->
  Forall (fun c => contains_point c = false) (candidates self before) ->
  forall rnd,
    sample_sf contains_point self (before ++ rnd) = sample_sf contains_point self rnd.
Proof.
  induction before as [| u | u1 u2 before IH] using pairs_ind; intros Hev Hrej rnd.
  - reflexivity.
  - destruct Hev as [k Hk]. simpl in Hk. lia.
  - simpl in Hrej. apply Forall_cons_iff in Hrej as [Hc Hrej].
    simpl. rewrite Hc. simpl. apply IH; [|exact Hrej].
    destruct Hev as [k Hk]. simpl in Hk. exists (k - 1)%nat. lia.
Qed.

(** X1: the loop returns the first candidate that the test accepts, with the
    values of the generator that follow it: when the candidates made of the
    values [before] all fail the test and the next one passes, [sample_sf]
    returns that one. *)
Theorem sample_sf_first_accepted (before : list Q) (u1 u2 : Q) (rest : list Q) :
  Nat.Even (List.length before) ->
  Forall (fun c => contains_point c = false) (candidates self before) ->
  contains_point (uniform (ylim self) u1, uniform (xlim self) u2) = true ->
  sample_sf contains_point self (before ++ u1 :: u2 :: rest)
    = Ret ((uniform (ylim self) u1, uniform (xlim self) u2), rest).
Proof.
  intros Hev Hrej Hacc. rewrite (sample_sf_skips before Hev Hrej).
  simpl. rewrite Hacc. reflexivity.
Qed.

Lemma sample_sf_no_answer (rnd : list Q) :
  (forall e, sample_sf contains_point self rnd <> Raise e)
  /\ (sample_sf contains_point self rnd = Diverge <->
      Forall (fun c => contains_point c = false) (candidates self rnd)).
Proof.
  induction rnd as [| u | u1 u2 rnd [IHa IHb]] using pairs_ind.
  - simpl. split; [discriminate | split; [constructor | reflexivity]].
  - simpl. split; [discriminate | split; [constructor | reflexivity]].
  - simpl.
    destruct (contains_point (uniform (ylim self) u1, uniform (xlim self) u2)) eqn:E; simpl.
    + split; [discriminate|]. split; [discriminate|].
      intro H. apply Forall_cons_iff in H as [H _]. congruence.
    + split; [exact IHa|]. rewrite IHb. split.
      * intro H. constructor; assumption.
      * intro H. apply Forall_cons_iff in H as [_ H]. exact H.
Qed.

(** X2: [sample_sf] raises nothing, and it is left without a coordinate
    exactly when every candidate that the values make fails the test: no
    count of attempts ends the loop. *)
Theorem sample_sf_only_ends_by_acceptance (rnd : list Q) :
  (forall e, sample_sf contains_point self rnd <> Raise e)
  /\ (sample_sf contains_point self rnd = Diverge <->
      Forall (fun c => contains_point c = false) (candidates self rnd))
  /\ ((exists c, In c (candidates self rnd) /\ contains_point c = true) ->
      exists P rnd', sample_sf contains_point self rnd = Ret (P, rnd')).
Proof.
  destruct (sample_sf_no_answer rnd) as [Hr Hd].
  split; [exact Hr|]. split; [exact Hd|].
  intros (c & Hin & Hc).
  destruct (sample_sf contains_point self rnd) as [[P rnd']| e |] eqn:E.
  - eauto.
  - destruct (Hr e). reflexivity.
  - assert (Hall := proj1 Hd eq_refl).
    rewrite Forall_forall in Hall. specialize (Hall c Hin). congruence.
Qed.

(** X5: [sample_locations] draws the second coordinate with the values that
    the first left over, and both coordinates pass the membership test. *)
Theorem sample_locations_in_sf (rnd rest : list Q) (p1 p2 : point) :
  sample_locations contains_point self rnd = Ret (p1, p2, rest) ->
  in_sf contains_point p1 = true /\ in_sf contains_point p2 = true
  /\ exists mid,
       sample_sf contains_point self rnd = Ret (p1, mid)
       /\ sample_sf contains_point self mid = Ret (p2, rest).
Proof.
  unfold sample_locations. intro H.
  destruct (sample_sf contains_point self rnd) as [[q1 mid]| |] eqn:E1;
    try discriminate. simpl in H.
  destruct (sample_sf contains_point self mid) as [[q2 rest']| |] eqn:E2;
    try discriminate. simpl in H.
  injection H as <- <- <-.
  destruct (@GeoFacts.sample_sf_accepted contains_point self rnd _ (le_n _) _ _ E1) as [H1 _].
  destruct (@GeoFacts.sample_sf_accepted contains_point self mid _ (le_n _) _ _ E2) as [H2 _].
  unfold in_sf. rewrite H1, H2.
  split; [reflexivity|]. split; [reflexivity|].
  exists mid. split; [reflexivity | exact E2].
Qed.

(** X6: [sample_locations] returns the first two accepted candidates in the
    order drawn and compares them with nothing: when the generator repeats
    the two values of an accepted candidate, the two coordinates are the same
    point. *)
Theorem sample_locations_takes_two (before1 before2 : list Q) (u1 u2 v1 v2 : Q)
        (rest : list Q) :
  Nat.Even (List.length before1) ->
  Forall (fun c => contains_point c = false) (candidates self before1) ->
  contains_point (uniform (ylim self) u1, uniform (xlim self) u2) = true ->
  Nat.Even (List.length before2) ->
  Forall (fun c => contains_point c = false) (candidates self before2) ->
  contains_point (uniform (ylim self) v1, uniform (xlim self) v2) = true ->
  sample_locations contains_point self
      (before1 ++ u1 :: u2 :: before2 ++ v1 :: v2 :: rest)
    = Ret ((uniform (ylim self) u1, uniform (xlim self) u2),
           (uniform (ylim self) v1, uniform (xlim self) v2), rest)
  /\ sample_locations contains_point self (u1 :: u2 :: u1 :: u2 :: rest)
     = Ret ((uniform (ylim self) u1, uniform (xlim self) u2),
            (uniform (ylim self) u1, uniform (xlim self) u2), rest).
Proof.
  intros E1 R1 A1 E2 R2 A2. unfold sample_locations. split.
  - rewrite (sample_sf_skips before1 E1 R1). simpl. rewrite A1. simpl.
    rewrite (sample_sf_skips before2 E2 R2). simpl. rewrite A2. reflexivity.
  - simpl. rewrite A1. simpl. rewrite A1. reflexivity.
Qed.

End Loop.

Lemma sample_sf_first_accepted_witness :
  sample_sf sfPath sf_bounds draws
  = Ret ((uniform (ylim sf_bounds) (1 # 2), uniform (xlim sf_bounds) (1 # 2)),
         [1 # 4; 1 # 2]).
Proof.
  apply (sample_sf_first_accepted sfPath sf_bounds [0; 0] (1 # 2) (1 # 2) [1 # 4; 1 # 2]).
  - exists 1%nat. reflexivity.
  - repeat constructor.
  - vm_compute. reflexivity.
Defined.

Lemma sample_sf_only_ends_by_acceptance_witness :
  sample_sf sfPath sf_bounds [0; 0; 1; 1; 0; 1] = Diverge
  /\ exists P rnd', sample_sf sfPath sf_bounds draws = Ret (P, rnd').
Proof.
  split.
  - apply (proj1 (proj2 (sample_sf_only_ends_by_acceptance sfPath sf_bounds
                           [0; 0; 1; 1; 0; 1]))).
    repeat constructor.
  - apply (proj2 (proj2 (sample_sf_only_ends_by_acceptance sfPath sf_bounds draws))).
    exists (uniform (ylim sf_bounds) (1 # 2), uniform (xlim sf_bounds) (1 # 2)).
    split; [right; left; reflexivity | vm_compute; reflexivity].
Defined.

Lemma sample_locations_in_sf_witness :
  in_sf sfPath (uniform (ylim sf_bounds) (1 # 2), uniform (xlim sf_bounds) (1 # 2)) = true
  /\ in_sf sfPath (uniform (ylim sf_bounds) (1 # 4), uniform (xlim sf_bounds) (1 # 2)) = true.
Proof.
  assert (E : sample_locations sfPath sf_bounds draws
              = Ret ((uniform (ylim sf_bounds) (1 # 2), uniform (xlim sf_bounds) (1 # 2)),
                     (uniform (ylim sf_bounds) (1 # 4), uniform (xlim sf_bounds) (1 # 2)),
                     [])) by (vm_compute; reflexivity).
  destruct (sample_locations_in_sf sfPath sf_bounds draws [] _ _ E) as (H1 & H2 & _).
  split; assumption.
Defined.

Lemma sample_locations_takes_two_witness :
  sample_locations sfPath sf_bounds [0; 0; 1 # 2; 1 # 2; 1; 1; 1 # 2; 1 # 2; 3 # 4]
  = Ret ((uniform (ylim sf_bounds) (1 # 2), uniform (xlim sf_bounds) (1 # 2)),
         (uniform (ylim sf_bounds) (1 # 2), uniform (xlim sf_bounds) (1 # 2)),
         [3 # 4]).
Proof.
  refine (proj1 (sample_locations_takes_two sfPath sf_bounds [0; 0] [1; 1]
                   (1 # 2) (1 # 2) (1 # 2) (1 # 2) [3 # 4] _ _ _ _ _ _)).
  - exists 1%nat. reflexivity.
  - constructor; [vm_compute; reflexivity | constructor].
  - vm_compute. reflexivity.
  - exists 1%nat. reflexivity.
  - constructor; [vm_compute; reflexivity | constructor].
  - vm_compute. reflexivity.
Defined.

(** *** The bounding box *)

Lemma amin_from_in (l : list Q) : forall x, In (amin_from x l) (x :: l).
Proof.
  induction l as [|y l IH]; intro x; simpl.
  - left. reflexivity.
  - destruct (IH (if Qle_bool y x then y else x)) as [H | H].
    + destruct (Qle_bool y x); [right; left | left]; exact H.
    + right. right. exact H.
Qed.

Lemma amax_from_in (l : list Q) : forall x, In (amax_from x l) (x :: l).
Proof.
  induction l as [|y l IH]; intro x; simpl.
  - left. reflexivity.
  - destruct (IH (if Qle_bool x y then y else x)) as [H | H].
    + destruct (Qle_bool x y); [right; left | left]; exact H.
    + right. right. exact H.
Qed.

(** X4: [__init__] fails on an empty perimeter only; otherwise the limits it
    stores are coordinates of vertices and every vertex lies between them. *)
Theorem init_bounds_spans_perimeter (perim : list point) :
  (init_bounds perim = Raise ValueError <-> perim = [])
  /\ forall b, init_bounds perim = Ret b ->
       Forall (fun v => ymin b <= fst v <= ymax b /\ xmin b <= snd v <= xmax b) perim
       /\ In (ymin b) (lats perim) /\ In (ymax b) (lats perim)
       /\ In (xmin b) (lons perim) /\ In (xmax b) (lons perim).
Proof.
  split.
  - destruct perim; simpl; split; intro H; try reflexivity; discriminate.
  - intros b Hb. split; [exact (@GeoFacts.init_bounds_box perim b Hb)|].
    destruct perim as [|v0 rest]; [discriminate|].
    unfold init_bounds, lats, lons in *. simpl in Hb. injection Hb as <-.
    unfold ymin, ymax, xmin, xmax. simpl.
    repeat split.
    + apply (amin_from_in (map fst rest) (fst v0)).
    + apply (amax_from_in (map fst rest) (fst v0)).
    + apply (amin_from_in (map snd rest) (snd v0)).
    + apply (amax_from_in (map snd rest) (snd v0)).
Qed.

Lemma init_bounds_spans_perimeter_witness :
  In (ymin sf_bounds) (lats sf_perim) /\ In (xmax sf_bounds) (lons sf_perim).
Proof.
  destruct (proj2 (init_bounds_spans_perimeter sf_perim) sf_bounds)
    as (_ & H1 & _ & _ & H4).
  - vm_compute. reflexivity.
  - split; assumption.
Defined.

(** X3: with values of the generator between 0 and 1, the coordinate that
    [sample_sf] returns lies in the bounding box of the perimeter, whatever
    the membership test. *)
Theorem sample_sf_in_box (perim : list point) (b : bounds)
        (contains_point : point -> bool) (rnd rest : list Q) (P : point) :
  init_bounds perim = Ret b ->
  Forall (fun u => 0 <= u <= 1) rnd ->
  sample_sf contains_point b rnd = Ret (P, rest) ->
  ymin b <= fst P <= ymax b /\ xmin b <= snd P <= xmax b.
Proof.
  intros Hb Hu Hs.
  destruct (@GeoFacts.sample_sf_accepted contains_point b rnd _ (le_n _) _ _ Hs)
    as [_ (before & u1 & u2 & Hr & -> & _)].
  rewrite Hr in Hu. apply Forall_app in Hu as [_ Hu].
  apply Forall_cons_iff in Hu as [Hu1 Hu].
  apply Forall_cons_iff in Hu as [Hu2 _].
  pose proof (@GeoFacts.init_bounds_box perim b Hb) as Hbox.
  destruct perim as [|v0 perim']; [discriminate|].
  apply Forall_cons_iff in Hbox as [[Hy Hx] _].
  simpl. unfold ymin, ymax, xmin, xmax in *. split.
  - apply GeoFacts.uniform_between; [lra | exact Hu1].
  - apply GeoFacts.uniform_between; [lra | exact Hu2].
Qed.

Lemma sample_sf_in_box_witness :
  ymin sf_bounds <= uniform (ylim sf_bounds) (1 # 2) <= ymax sf_bounds
  /\ xmin sf_bounds <= uniform (xlim sf_bounds) (1 # 2) <= xmax sf_bounds.
Proof.
  apply (sample_sf_in_box sf_perim sf_bounds sfPath draws [1 # 4; 1 # 2]
           (uniform (ylim sf_bounds) (1 # 2), uniform (xlim sf_bounds) (1 # 2))).
  - vm_compute. reflexivity.
  - unfold draws. repeat constructor; simpl; lra.
  - vm_compute. reflexivity.
Defined.

End SamplerFacts.

(** ** More on the travel times as text *)

Module ParseFacts.

Import Duration Scenarios Samples.
Open Scope list_scope.
Open Scope string_scope.
Open Scope Z_scope.

(** *** What the two patterns can match *)

Lemma digit_1_9 (c : ascii) :
  atom_matches (Range "1" "9") c = true ->
  In c ["1"; "2"; "3"; "4"; "5"; "6"; "7"; "8"; "9"]%char.
Proof.
  destruct c as [[] [] [] [] [] [] [] []]; simpl; intro H;
    try discriminate H; tauto.
Qed.

Lemma digit_0_9 (c : ascii) :
  atom_matches (Range "0" "9") c = true ->
  In c ["0"; "1"; "2"; "3"; "4"; "5"; "6"; "7"; "8"; "9"]%char.
Proof.
  destruct c as [[] [] [] [] [] [] [] []]; simpl; intro H;
    try discriminate H; tauto.
Qed.

(** An item that stands once matches one character and hands the rest on. *)
Lemma match_here_once (a : atom) (re : list item) (s : string) :
  match_here (once a :: re) s =
    match s with
    | String c s' =>
        if atom_matches a c
        then match match_here re s' with
             | Some m => Some (String c m)
             | None => None
             end
        else None
    | "" => None
    end.
Proof.
  destruct s as [|c s']; [reflexivity|].
  simpl. destruct (atom_matches a c); reflexivity.
Qed.

(** The end of both patterns: a space and the unit letter. *)
Lemma match_here_unit (unit : ascii) (s m : string) :
  match_here [once (Lit " "); once (Lit unit)] s = Some m ->
  m = String " " (String unit "").
Proof.
  rewrite match_here_once. destruct s as [|c s]; [discriminate|].
  destruct (atom_matches (Lit " ") c) eqn:E; [|discriminate].
  rewrite match_here_once. destruct s as [|c' s]; [discriminate|].
  destruct (atom_matches (Lit unit) c') eqn:E'; [|discriminate].
  simpl in E, E'. apply Ascii.eqb_eq in E, E'. subst.
  simpl. intro H. injection H as <-. reflexivity.
Qed.

Lemma match_here_hour (s m : string) :
  match_here hour_re s = Some m ->
  exists c, atom_matches (Range "1" "9") c = true /\ m = String c " h".
Proof.
  unfold hour_re. rewrite match_here_once.
  destruct s as [|c s]; [discriminate|].
  destruct (atom_matches (Range "1" "9") c) eqn:E; [|discriminate].
  destruct (match_here _ s) as [m'|] eqn:E'; [|discriminate].
  apply match_here_unit in E'. subst m'.
  intro H. injection H as <-. exists c. split; [exact E | reflexivity].
Qed.

(** Up to two characters of a class, then the rest of the pattern. *)
Lemma match_here_upto2 (a : atom) (re : list item) (s m : string) :
  match_here (mkItem a 0 2 :: re) s = Some m ->
  exists m',
    (exists t, match_here re t = Some m') /\
    (m = m'
     \/ (exists c, atom_matches a c = true /\ m = String c m')
     \/ (exists c1 c2, atom_matches a c1 = true /\ atom_matches a c2 = true
                       /\ m = String c1 (String c2 m'))).
Proof.
  assert (Hsome : forall t m0 (P : Prop),
             match_here re t = Some m0 -> P -> (exists t', match_here re t' = Some m0) /\ P)
    by (intros t m0 P Ht HP; split; [exists t; exact Ht | exact HP]).
  destruct s as [|c1 [|c2 s2]]; simpl;
    [| destruct (atom_matches a c1) eqn:E1; simpl
     | destruct (atom_matches a c1) eqn:E1; simpl;
       [destruct (atom_matches a c2) eqn:E2; simpl|]];
    repeat match goal with
           | |- context [match match_here re ?t with _ => _ end] =>
               destruct (match_here re t) eqn:?
           end;
    intro H; try discriminate H; injection H as <-;
    eexists; (eapply Hsome; [eassumption|]);
    first [ left; reflexivity
          | right; left; exists c1; split; [assumption | reflexivity]
          | right; right; exists c1, c2;
            split; [assumption | split; [assumption | reflexivity]] ].
Qed.

Lemma match_here_minute (s m : string) :
  match_here minute_re s = Some m ->
  m = " m"
  \/ (exists c, atom_matches (Range "0" "9") c = true /\ m = String c " m")
  \/ (exists c1 c2, atom_matches (Range "0" "9") c1 = true
                    /\ atom_matches (Range "0" "9") c2 = true
                    /\ m = String c1 (String c2 " m")).
Proof.
  intro H. apply match_here_upto2 in H.
  destruct H as (m' & [t Ht] & H). apply match_here_unit in Ht. subst m'.
  exact H.
Qed.

Lemma search_unfold (re : list item) (a : ascii) (s : string) :
  search re (String a s) =
    match match_here re (String a s) with
    | Some m => Some m
    | None => search re s
    end.
Proof. reflexivity. Qed.

(** [re.search] returns a match of the pattern at some position. *)
Lemma search_match_here (re : list item) (s m : string) :
  search re s = Some m -> exists t, match_here re t = Some m.
Proof.
  induction s as [|a s IH].
  - simpl. destruct (match_here re "") eqn:E; [|discriminate].
    intro H. injection H as <-. eauto.
  - rewrite search_unfold.
    destruct (match_here re (String a s)) as [m'|] eqn:E.
    + intro H. injection H as <-. eauto.
    + exact IH.
Qed.

(** *** What [int] receives *)

Lemma hours_value (g : string) :
  (exists t, match_here hour_re t = Some g) ->
  exists h, 1 <= h <= 9 /\ int (replace " h" "" g) = Ret h.
Proof.
  intros [t H]. apply match_here_hour in H. destruct H as (c & Hc & ->).
  apply digit_1_9 in Hc. simpl in Hc.
  repeat (destruct Hc as [<- | Hc];
          [eexists; split; [|vm_compute; reflexivity]; lia|]).
  destruct Hc.
Qed.

Lemma minutes_value (g : string) :
  (exists t, match_here minute_re t = Some g) ->
  (g = " m" /\ int (replace " m" "" g) = Raise ValueError)
  \/ exists m, 0 <= m <= 99 /\ int (replace " m" "" g) = Ret m.
Proof.
  intros [t H]. apply match_here_minute in H.
  destruct H as [-> | [(c & Hc & ->) | (c1 & c2 & H1 & H2 & ->)]].
  - left. split; reflexivity.
  - right. apply digit_0_9 in Hc. simpl in Hc.
    repeat (destruct Hc as [<- | Hc];
            [eexists; split; [|vm_compute; reflexivity]; lia|]).
    destruct Hc.
  - right. apply digit_0_9 in H1, H2. simpl in H1, H2.
    repeat (destruct H1 as [<- | H1];
            [repeat (destruct H2 as [<- | H2];
                     [eexists; split; [|vm_compute; reflexivity]; lia|]);
             destruct H2|]).
    destruct H1.
Qed.

(** *** The values and the failures of [parse_times] *)

(** The two halves of [parse_times], by cases. *)
Lemma hour_half (timestr : string) :
  (str_in "h" timestr = false)
  \/ (str_in "h" timestr = true /\ search hour_re timestr = None)
  \/ (str_in "h" timestr = true /\
      exists g h, search hour_re timestr = Some g /\ 1 <= h <= 9
                  /\ int (replace " h" "" g) = Ret h).
Proof.
  destruct (str_in "h" timestr); [|left; reflexivity].
  right. destruct (search hour_re timestr) as [g|] eqn:S; [|left; split; reflexivity].
  right. split; [reflexivity|].
  destruct (hours_value g (search_match_here _ _ _ S)) as (h & Hh & Ih).
  exists g, h. auto.
Qed.

Lemma minute_half (timestr : string) :
  (str_in "m" timestr = false)
  \/ (str_in "m" timestr = true /\ search minute_re timestr = None)
  \/ (str_in "m" timestr = true /\ search minute_re timestr = Some " m"
      /\ int (replace " m" "" " m") = Raise ValueError)
  \/ (str_in "m" timestr = true /\
      exists g m, search minute_re timestr = Some g /\ 0 <= m <= 99
                  /\ int (replace " m" "" g) = Ret m).
Proof.
  destruct (str_in "m" timestr); [|left; reflexivity].
  right. destruct (search minute_re timestr) as [g|] eqn:S; [|left; split; reflexivity].
  right. destruct (minutes_value g (search_match_here _ _ _ S)) as [[-> Iv] | (m & Hm & Im)].
  - left. auto.
  - right. split; [reflexivity|]. exists g, m. auto.
Qed.

Ltac halves timestr :=
  unfold parse_times;
  destruct (hour_half timestr)
    as [Eh | [[Eh Sh] | [Eh (g & h & Sh & Hh & Ih)]]];
  destruct (minute_half timestr)
    as [Em | [[Em Sm] | [(Em & Sm & Im) | [Em (g' & m & Sm & Hm & Im)]]]];
  rewrite Eh, Em; try rewrite Sh; try rewrite Sm; cbn [obind group];
  try rewrite Ih; cbn [obind]; try rewrite Im; cbn [obind].

(** [parse_times] has no loop of its own. *)
Lemma parse_times_ends (timestr : string) : parse_times timestr <> Diverge.
Proof. halves timestr; discriminate. Qed.

(** No text is parsed to a negative value or to more than 639 minutes. *)
Lemma parse_times_bound (timestr : string) (n : Z) :
  parse_times timestr = Ret n -> 0 <= n <= 639.
Proof.
  halves timestr; intro H; try discriminate H; injection H as <-; lia.
Qed.

(** X7: a value that [parse_times] returns is [60 * h + m] with [h] the
    digit of the hours, from 1 to 9, or 0 when the text has no letter [h],
    and [m] at most 99, and 0 when the text has no letter [m]: no text is
    parsed to more than 639 minutes. *)
Theorem parse_times_range (timestr : string) (n : Z) :
  parse_times timestr = Ret n ->
  0 <= n <= 639
  /\ exists h m,
       n = 60 * h + m /\ 0 <= h <= 9 /\ 0 <= m <= 99
       /\ (str_in "h" timestr = false -> h = 0)
       /\ (str_in "h" timestr = true -> 1 <= h)
       /\ (str_in "m" timestr = false -> m = 0).
Proof.
  halves timestr; intro H; try discriminate H; injection H as <-.
  - split; [lia|]. exists 0, 0. repeat split; intros; try lia; congruence.
  - split; [lia|]. exists 0, m. repeat split; intros; try lia; congruence.
  - split; [lia|]. exists h, 0. repeat split; intros; try lia; congruence.
  - split; [lia|]. exists h, m. repeat split; intros; try lia; congruence.
Qed.

Lemma parse_times_range_witness :
  0 <= 72 <= 639
  /\ exists h m,
       72 = 60 * h + m /\ 0 <= h <= 9 /\ 0 <= m <= 99
       /\ (str_in "h" "1 h 12 min" = false -> h = 0)
       /\ (str_in "h" "1 h 12 min" = true -> 1 <= h)
       /\ (str_in "m" "1 h 12 min" = false -> m = 0).
Proof.
  apply (parse_times_range "1 h 12 min" 72). vm_compute. reflexivity.
Defined.

(** X8: [parse_times] always ends, and it raises two exceptions only:
    [AttributeError] when a unit letter is in the text and its pattern is
    found nowhere, and [ValueError] when the minute pattern is found with no
    digit before the space. *)
Theorem parse_times_failures (timestr : string) :
  parse_times timestr <> Diverge
  /\ (forall e, parse_times timestr = Raise e -> e = AttributeError \/ e = ValueError)
  /\ (parse_times timestr = Raise AttributeError ->
      (str_in "h" timestr = true /\ search hour_re timestr = None)
      \/ (str_in "m" timestr = true /\ search minute_re timestr = None))
  /\ (parse_times timestr = Raise ValueError ->
      str_in "m" timestr = true /\ search minute_re timestr = Some " m").
Proof.
  halves timestr;
    (split; [discriminate|]);
    (split; [intros e H; try discriminate H; injection H as <-; auto|]);
    (split; [intro H; try discriminate H; auto|]);
    intro H; try discriminate H; auto.
Qed.

Lemma parse_times_failures_witness :
  (str_in "h" "10 h 5 min" = true /\ search hour_re "10 h 5 min" = None)
  \/ (str_in "m" "10 h 5 min" = true /\ search minute_re "10 h 5 min" = None).
Proof.
  apply (proj1 (proj2 (proj2 (parse_times_failures "10 h 5 min")))).
  vm_compute. reflexivity.
Defined.

(** X9: only the last digit of the hours and the last two digits of the
    minutes are read.  A text of two digits of hours gives sixty times the
    second digit, or [AttributeError] when that digit is 0; a text of three
    digits of minutes gives the number that its last two digits make. *)
Theorem parse_times_reads_last_digits (h m : nat) :
  (10 <= h <= 99)%nat -> (100 <= m <= 999)%nat ->
  parse_times (shown_hours h)
    = (if (h mod 10 =? 0)%nat then Raise AttributeError
       else Ret (60 * Z.of_nat (h mod 10)))
  /\ parse_times (decimal3 m ++ " min") = Ret (Z.of_nat (m mod 100)).
Proof.
  intros Hh Hm.
  assert (A : forallb (fun h' =>
             match parse_times (shown_hours h') with
             | Ret a => negb (h' mod 10 =? 0)%nat && (a =? 60 * Z.of_nat (h' mod 10))
             | Raise AttributeError => (h' mod 10 =? 0)%nat
             | _ => false
             end) (seq 10 90) = true) by (vm_compute; reflexivity).
  assert (B : forallb (fun m' =>
             match parse_times (decimal3 m' ++ " min") with
             | Ret a => a =? Z.of_nat (m' mod 100)
             | _ => false
             end) (seq 100 900) = true) by (vm_compute; reflexivity).
  rewrite forallb_forall in A, B.
  assert (Ih : In h (seq 10 90)) by (apply in_seq; lia).
  assert (Im : In m (seq 100 900)) by (apply in_seq; lia).
  specialize (A h Ih). specialize (B m Im).
  split.
  - destruct (parse_times (shown_hours h)) as [a|e|]; try discriminate.
    + apply andb_prop in A as [A1 A2]. apply Z.eqb_eq in A2. subst a.
      destruct (h mod 10 =? 0)%nat; [discriminate | reflexivity].
    + destruct e; try discriminate. rewrite A. reflexivity.
  - destruct (parse_times (decimal3 m ++ " min")) as [a| |]; try discriminate.
    apply Z.eqb_eq in B. subst a. reflexivity.
Qed.

Lemma parse_times_reads_last_digits_witness :
  parse_times "12 h" = Ret 120 /\ parse_times "123 min" = Ret 23.
Proof.
  apply (parse_times_reads_last_digits 12 123); lia.
Defined.

End ParseFacts.

(** ** More on the collection cycle *)

Module CycleFacts.

Import Geo Duration Trip Db Scenarios Samples.
Open Scope list_scope.
Open Scope Z_scope.

(** *** One pass over the four modes *)

(** The entries of a pass that returns. *)
Lemma get_traveltimes_shape (pg : page) (d : dict) :
  get_traveltimes pg = Ret d ->
  map fst d = dir_dict_keys
  /\ forall key v, In (key, v) d ->
       exists text, pg key = Ret text
         /\ match text with
            | [] => v = None
            | t0 :: _ => exists n, parse_times t0 = Ret n /\ v = Some n
            end.
Proof.
  unfold get_traveltimes, dir_dict_keys. simpl.
  destruct (pg k_driving) as [t1| |] eqn:E1; try discriminate. simpl.
  destruct (match t1 with
            | [] => Ret None
            | t0 :: _ => obind (parse_times t0) (fun n => Ret (Some n))
            end) as [v1| |] eqn:V1; try discriminate. simpl.
  destruct (pg k_transit) as [t2| |] eqn:E2; try discriminate. simpl.
  destruct (match t2 with
            | [] => Ret None
            | t0 :: _ => obind (parse_times t0) (fun n => Ret (Some n))
            end) as [v2| |] eqn:V2; try discriminate. simpl.
  destruct (pg k_walk) as [t3| |] eqn:E3; try discriminate. simpl.
  destruct (match t3 with
            | [] => Ret None
            | t0 :: _ => obind (parse_times t0) (fun n => Ret (Some n))
            end) as [v3| |] eqn:V3; try discriminate. simpl.
  destruct (pg k_bicycle) as [t4| |] eqn:E4; try discriminate. simpl.
  destruct (match t4 with
            | [] => Ret None
            | t0 :: _ => obind (parse_times t0) (fun n => Ret (Some n))
            end) as [v4| |] eqn:V4; try discriminate. simpl.
  intro H. injection H as <-. split; [reflexivity|].
  assert (Hv : forall text v,
             match text with
             | [] => Ret None
             | t0 :: _ => obind (parse_times t0) (fun n => Ret (Some n))
             end = Ret v ->
             match text with
             | [] => v = None
             | t0 :: _ => exists n, parse_times t0 = Ret n /\ v = Some n
             end).
  { intros [|t0 text] v; simpl.
    - intro H. injection H as <-. reflexivity.
    - destruct (parse_times t0) as [n| |]; simpl; try discriminate.
      intro H. injection H as <-. eauto. }
  intros key v [H | [H | [H | [H | []]]]]; injection H as <- <-;
    eexists; (split; [eassumption|]); apply Hv; assumption.
Qed.

(** X10: a pass of [get_traveltimes] that returns has one entry for each key
    of [dir_dict], in its order; the entry of a key is [None] when no text
    shows for it, and otherwise the minutes parsed from the first text. *)
Theorem get_traveltimes_entries (pg : page) (d : dict) :
  get_traveltimes pg = Ret d ->
  map fst d = dir_dict_keys
  /\ forall key v, In (key, v) d ->
       exists text, pg key = Ret text
         /\ match text with
            | [] => v = None
            | t0 :: _ => exists n, parse_times t0 = Ret n /\ v = Some n
            end.
Proof. apply get_traveltimes_shape. Qed.

Lemma get_traveltimes_entries_witness :
  map fst [(k_driving, Some 16); (k_transit, Some 38); (k_walk, None);
           (k_bicycle, Some 31)] = dir_dict_keys
  /\ exists text, page_no_walk k_walk = Ret text /\ text = [].
Proof.
  destruct (get_traveltimes_entries page_no_walk
              [(k_driving, Some 16); (k_transit, Some 38); (k_walk, None);
               (k_bicycle, Some 31)] eq_refl) as [Hk Hv].
  split; [exact Hk|].
  destruct (Hv k_walk None) as (text & Ht & Hn).
  - right. right. left. reflexivity.
  - exists text. split; [exact Ht|]. destruct text; [reflexivity|].
    destruct Hn as (n & _ & Hn). discriminate Hn.
Defined.

(** X11: a pass does not return when a selenium call fails for a key or when
    the first text of a key cannot be parsed: the times read for the other
    keys are lost with it. *)
Theorem get_traveltimes_all_or_nothing (pg : page) (key : dir_key) :
  (forall k, pg k <> Diverge) ->
  (exists e, pg key = Raise e)
  \/ (exists t0 text e, pg key = Ret (t0 :: text) /\ parse_times t0 = Raise e) ->
  exists e, get_traveltimes pg = Raise e.
Proof.
  intros Hnd Hbad.
  destruct (get_traveltimes pg) as [d|e|] eqn:E.
  - exfalso. destruct (get_traveltimes_shape pg d E) as [Hk Hv].
    assert (Hin : In key (map fst d)) by (rewrite Hk; destruct key; simpl; tauto).
    apply in_map_iff in Hin. destruct Hin as ([k v] & Hfst & Hin). simpl in Hfst. subst k.
    destruct (Hv key v Hin) as (text & Ht & Hm).
    destruct Hbad as [[e He] | (t0 & text' & e & He & Hp)]; rewrite He in Ht.
    + discriminate.
    + injection Ht as <-. destruct Hm as (n & Hn & _). congruence.
  - eauto.
  - exfalso. revert E. unfold get_traveltimes, dir_dict_keys. simpl.
    assert (Hv : forall text,
               match text with
               | [] => Ret None
               | t0 :: _ => obind (parse_times t0) (fun n => Ret (Some n))
               end <> @Diverge (option Z)).
    { intros [|t0 text]; simpl; [discriminate|].
      pose proof (ParseFacts.parse_times_ends t0) as Ht.
      destruct (parse_times t0); simpl; congruence. }
    repeat match goal with
           | |- context [pg ?k] =>
               let E := fresh "E" in
               destruct (pg k) as [?| |] eqn:E;
               [ simpl | simpl; discriminate | destruct (Hnd k E) ]
           | |- context [obind (match ?t with [] => _ | _ :: _ => _ end) _] =>
               let V := fresh "V" in
               destruct (match t with
                         | [] => Ret None
                         | t0 :: _ => obind (parse_times t0) (fun n => Ret (Some n))
                         end) as [?| |] eqn:V;
               [ simpl | simpl; discriminate | destruct (Hv t V) ]
           end.
    discriminate.
Qed.

Lemma get_traveltimes_all_or_nothing_witness :
  exists e, get_traveltimes page_long_walk = Raise e.
Proof.
  apply (get_traveltimes_all_or_nothing page_long_walk k_walk).
  - intro k. destruct k; discriminate.
  - right. exists "10 h 5 min"%string, [], AttributeError.
    split; [reflexivity | vm_compute; reflexivity].
Defined.

(** *** The loop around the pass *)

Lemma get_times_loop_raises_nothing (wait : Z) (attempts : list (page * Z)) :
  forall gtt wttm e, get_times_loop wait gtt wttm attempts <> Raise e.
Proof.
  induction attempts as [|[pg us] attempts IH]; intros gtt wttm e;
    rewrite TripFacts.get_times_loop_eq;
    destruct (negb (truthy gtt) && (wttm <=? wait)); try discriminate.
  destruct (get_traveltimes pg); try discriminate; apply IH.
Qed.

(** X12: [get_times] raises nothing, whatever the passes raise: the bare
    [except] takes every exception. *)
Theorem get_times_raises_nothing (wait : Z) (attempts : list (page * Z)) (e : exn) :
  get_times wait attempts <> Raise e.
Proof. apply get_times_loop_raises_nothing. Qed.

Lemma get_times_skips_failed (wait : Z) (failed : list (page * Z)) :
  0 <= wait ->
  Forall (fun a => exists e, get_traveltimes (fst a) = Raise e) failed ->
  forall attempts,
    get_times wait (failed ++ attempts) = get_times wait attempts.
Proof.
  intros Hw Hf attempts. unfold get_times.
  assert (Hgo : negb (truthy None) && (0 <=? wait) = true)
    by (simpl; apply Z.leb_le; exact Hw).
  induction Hf as [|[pg us] failed [e He] _ IH]; [reflexivity|].
  simpl app. rewrite TripFacts.get_times_loop_eq, Hgo.
  simpl in He. rewrite He. exact IH.
Qed.

(** X13: with a wait that is not negative, [get_times] returns the dict of
    the first pass that returns, after any number of passes that raised and
    whatever the clock read after them; the passes that would follow do not
    take place. *)
Theorem get_times_first_pass (wait : Z) (failed : list (page * Z)) (pg : page)
        (us : Z) (rest : list (page * Z)) (d : dict) :
  0 <= wait ->
  Forall (fun a => exists e, get_traveltimes (fst a) = Raise e) failed ->
  get_traveltimes pg = Ret d ->
  get_times wait (failed ++ (pg, us) :: rest) = Ret (Some d).
Proof.
  intros Hw Hf Hd. rewrite (get_times_skips_failed wait failed Hw Hf).
  unfold get_times. rewrite TripFacts.get_times_loop_eq.
  assert (Hgo : negb (truthy None) && (0 <=? wait) = true)
    by (simpl; apply Z.leb_le; exact Hw).
  rewrite Hgo, Hd, TripFacts.get_times_loop_eq.
  rewrite (TripFacts.all_keys_truthy (TripFacts.get_traveltimes_all_keys pg Hd)).
  reflexivity.
Qed.

Lemma get_times_first_pass_witness :
  get_times 15000000 [(page_stale, 900000); (page_long_walk, 999999);
                      (page_out, 250000); (page_back, 1)]
  = Ret (Some [(k_driving, Some 14); (k_transit, Some 41); (k_walk, Some 92);
               (k_bicycle, Some 27)]).
Proof.
  apply (get_times_first_pass 15000000
           [(page_stale, 900000); (page_long_walk, 999999)] page_out 250000
           [(page_back, 1)]).
  - lia.
  - constructor; [exists WebDriverException; reflexivity|].
    constructor; [exists AttributeError; vm_compute; reflexivity | constructor].
  - vm_compute. reflexivity.
Defined.

(** X14: [wait_time] does not bound the loop.  [get_times] returns [None]
    exactly when the wait is negative, before any pass; with a wait that is not
    negative and passes that all raise, the elapsed time is never read again
    and the loop goes on as long as passes are supplied. *)
Theorem get_times_wait_is_no_bound (wait : Z) (attempts : list (page * Z)) :
  (get_times wait attempts = Ret None <-> wait < 0)
  /\ (0 <= wait ->
      Forall (fun a => exists e, get_traveltimes (fst a) = Raise e) attempts ->
      get_times wait attempts = Diverge).
Proof.
  split.
  - split.
    + intro H. destruct (Z_lt_le_dec wait 0) as [Hlt | Hge]; [exact Hlt|].
      destruct (@TripFacts.get_times_all_keys wait attempts _ Hge H) as (d & Hd & _).
      discriminate Hd.
    + apply TripFacts.get_times_no_wait.
  - intros Hw Hf.
    rewrite <- (app_nil_r attempts), (get_times_skips_failed wait attempts Hw Hf).
    unfold get_times. rewrite TripFacts.get_times_loop_eq.
    destruct (Z.leb_spec 0 wait); [reflexivity | lia].
Qed.

Lemma get_times_wait_is_no_bound_witness :
  get_times (-1) [(page_out, 250000)] = Ret None
  /\ get_times 0 [(page_stale, 999999); (page_long_walk, 999999)] = Diverge.
Proof.
  split.
  - apply (proj2 (proj1 (get_times_wait_is_no_bound (-1) [(page_out, 250000)]))). lia.
  - apply (proj2 (get_times_wait_is_no_bound 0
                    [(page_stale, 999999); (page_long_walk, 999999)])).
    + lia.
    + constructor; [exists WebDriverException; reflexivity|].
      constructor; [exists AttributeError; vm_compute; reflexivity | constructor].
Defined.

(** *** Cycles one after the other *)

(** X15: when the wait of the instance is not negative, the rows that a
    cycle returns are those it would return from the frame of nulls: what
    earlier cycles left in the shared frame does not reach them. *)
Theorem run_ignores_earlier_cycles (self1 self2 : scraper) (w1 w2 : world) (f : frame) :
  0 <= wait_time self2 ->
  fst (run self2 w2 (snd (run self1 w1 f))) = fst (run self2 w2 timesdf).
Proof.
  intro Hw. apply TripFacts.run_overwrites_frame. exact Hw.
Qed.

Lemma run_ignores_earlier_cycles_witness :
  fst (run ms world_no_walk (snd (run ms world_full timesdf)))
  = fst (run ms world_no_walk timesdf).
Proof.
  apply (run_ignores_earlier_cycles ms ms world_full world_no_walk timesdf).
  vm_compute. discriminate.
Defined.

(** X16: with a negative wait, after a cycle that returns each of the two
    rows of the frame has the durations that the same row had before the
    cycle, and the rows returned are rows of that frame: a returned row has
    the durations that the frame held before the cycle at its own index.  From
    the frame of nulls such a cycle returns no row. *)
Theorem run_no_wait_returns_old_times (self : scraper) (w : world) (f f' : frame)
        (rows : list row) :
  wait_time self < 0 ->
  run self w f = (Ret rows, f') ->
  (driving (row0 f'), transit (row0 f'), walk (row0 f'), bicycle (row0 f'))
    = (driving (row0 f), transit (row0 f), walk (row0 f), bicycle (row0 f))
  /\ (driving (row1 f'), transit (row1 f'), walk (row1 f'), bicycle (row1 f'))
    = (driving (row1 f), transit (row1 f), walk (row1 f), bicycle (row1 f))
  /\ rows = filter (fun r => Nat.eqb (isnull_sum r) 0) [row0 f'; row1 f']
  /\ Forall (fun r =>
               (r = row0 f'
                /\ (driving r, transit r, walk r, bicycle r)
                   = (driving (row0 f), transit (row0 f), walk (row0 f),
                      bicycle (row0 f)))
               \/ (r = row1 f'
                   /\ (driving r, transit r, walk r, bicycle r)
                      = (driving (row1 f), transit (row1 f), walk (row1 f),
                         bicycle (row1 f)))) rows
  /\ (f = timesdf -> rows = []).
Proof.
  intros Hw H.
  destruct (TripFacts.run_no_wait_keeps_times self w f Hw) as [K0 K1].
  pose proof (TripFacts.run_Ret self w f H) as Hrows.
  rewrite H in K0, K1. simpl in K0, K1.
  split; [exact K0|]. split; [exact K1|]. split; [exact Hrows|].
  split.
  { subst rows. apply Forall_forall. intros r Hr.
    unfold full_rows in Hr. apply filter_In in Hr as [[<- | [<- | []]] _].
    - left. split; [reflexivity | exact K0].
    - right. split; [reflexivity | exact K1]. }
  intros ->. subst rows. unfold full_rows. simpl.
  injection K0 as D0 _ _ _. injection K1 as D1 _ _ _.
  assert (N0 : Nat.eqb (isnull_sum (row0 f')) 0 = false).
  { apply Nat.eqb_neq. unfold isnull_sum. rewrite D0. simpl.
    destruct (arrive_add (row0 f')), (arrive_lat (row0 f')), (arrive_lon (row0 f')),
      (bicycle (row0 f')), (depart_add (row0 f')), (depart_lat (row0 f')),
      (depart_lon (row0 f')), (transit (row0 f')), (walk (row0 f')),
      (timestamp (row0 f')); simpl; lia. }
  assert (N1 : Nat.eqb (isnull_sum (row1 f')) 0 = false).
  { apply Nat.eqb_neq. unfold isnull_sum. rewrite D1. simpl.
    destruct (arrive_add (row1 f')), (arrive_lat (row1 f')), (arrive_lon (row1 f')),
      (bicycle (row1 f')), (depart_add (row1 f')), (depart_lat (row1 f')),
      (depart_lon (row1 f')), (transit (row1 f')), (walk (row1 f')),
      (timestamp (row1 f')); simpl; lia. }
  rewrite N0, N1. reflexivity.
Qed.

Lemma run_no_wait_returns_old_times_witness :
  let f := snd (run ms world_full timesdf) in
  let f' := snd (run ms_no_wait world_no_walk f) in
  fst (run ms_no_wait world_no_walk f) = Ret [row0 f'; row1 f']
  /\ (driving (row0 f'), transit (row0 f'), walk (row0 f'), bicycle (row0 f'))
     = (Some 14, Some 41, Some 92, Some 27)
  /\ (driving (row1 f'), transit (row1 f'), walk (row1 f'), bicycle (row1 f'))
     = (Some 16, Some 38, Some 95, Some 31).
Proof.
  intros f f'.
  assert (E : run ms_no_wait world_no_walk f = (Ret [row0 f'; row1 f'], f'))
    by (vm_compute; reflexivity).
  assert (Hw : wait_time ms_no_wait < 0) by reflexivity.
  destruct (run_no_wait_returns_old_times ms_no_wait world_no_walk f f'
              [row0 f'; row1 f'] Hw E) as (K0 & K1 & _).
  split; [rewrite E; reflexivity|].
  split; [rewrite K0 | rewrite K1]; vm_compute; reflexivity.
Defined.

(** *** The two rows of a cycle *)

Lemma stored_row_nil (r : row) : stored_row [] r = r.
Proof. destruct r; reflexivity. Qed.

Lemma store_times_writes_0 (gt : option dict) :
  exists d, forall f,
    store_times 0 gt f = (Ret tt, mkFrame (stored_row d (row0 f)) (row1 f)).
Proof.
  unfold store_times. destruct (truthy gt).
  - exists (match gt with Some d => d | None => [] end). intro f.
    apply TripFacts.for_each_store_0.
  - exists []. intro f. rewrite stored_row_nil. destruct f; reflexivity.
Qed.

Lemma store_times_writes_1 (gt : option dict) :
  exists d, forall f,
    store_times 1 gt f = (Ret tt, mkFrame (row0 f) (stored_row d (row1 f))).
Proof.
  unfold store_times. destruct (truthy gt).
  - exists (match gt with Some d => d | None => [] end). intro f.
    apply TripFacts.for_each_store_1.
  - exists []. intro f. rewrite stored_row_nil. destruct f; reflexivity.
Qed.

(** The places and the addresses of the two rows after a cycle that
    returned. *)
Lemma run_Ret_places (self : scraper) (w : world) (f f' : frame) (rows : list row) :
  run self w f = (Ret rows, f') ->
  exists a d rest add_a add_d,
    sample_locations (sfPath self) (lims self) (rnd w) = Ret (a, d, rest)
    /\ get_address w a = Ret add_a /\ get_address w d = Ret add_d
    /\ (arrive_add (row0 f'), arrive_lat (row0 f'), arrive_lon (row0 f'))
       = (Some add_a, Some (fst a), Some (snd a))
    /\ (depart_add (row0 f'), depart_lat (row0 f'), depart_lon (row0 f'))
       = (Some add_d, Some (fst d), Some (snd d))
    /\ (arrive_add (row1 f'), arrive_lat (row1 f'), arrive_lon (row1 f'))
       = (Some add_d, Some (fst d), Some (snd d))
    /\ (depart_add (row1 f'), depart_lat (row1 f'), depart_lon (row1 f'))
       = (Some add_a, Some (fst a), Some (snd a))
    /\ timestamp (row0 f') = Some (now_out w)
    /\ timestamp (row1 f') = Some (now_back w).
Proof.
  unfold run. TripFacts.run_writes.
  destruct (sample_locations (sfPath self) (lims self) (rnd w)) as [[[p1 p2] rest]| |]
    eqn:Es; try discriminate.
  TripFacts.run_writes.
  destruct (get_address w p1) as [a1| |] eqn:E1; try discriminate.
  TripFacts.run_writes.
  destruct (get_address w p2) as [a2| |] eqn:E2; try discriminate.
  TripFacts.run_writes.
  destruct (searchboxes w) as [[]| |]; try discriminate.
  destruct (get_times (wait_time self) (pages_out w)) as [gt1| |]; try discriminate.
  TripFacts.run_writes.
  destruct (store_times_writes_0 gt1) as [d1 S1].
  rewrite (TripFacts.bind_step _ _ _ (S1 _)).
  TripFacts.run_writes.
  destruct (reverse_icon w) as [[]| |]; try discriminate.
  destruct (get_times (wait_time self) (pages_back w)) as [gt2| |]; try discriminate.
  TripFacts.run_writes.
  destruct (store_times_writes_1 gt2) as [d2 S2].
  rewrite (TripFacts.bind_step _ _ _ (S2 _)).
  intro H. injection H as _ <-.
  exists p1, p2, rest, a1, a2.
  split; [reflexivity|]. split; [exact E1|]. split; [exact E2|].
  repeat split; reflexivity.
Qed.

Lemma full_rows_cases (f : frame) (rows : list row) :
  rows = full_rows f ->
  (List.length rows <= 2)%nat
  /\ (forall r, In r rows -> r = row0 f \/ r = row1 f)
  /\ (forall r0 r1, rows = [r0; r1] -> r0 = row0 f /\ r1 = row1 f).
Proof.
  intros ->. unfold full_rows. simpl.
  destruct (Nat.eqb (isnull_sum (row0 f)) 0), (Nat.eqb (isnull_sum (row1 f)) 0); simpl;
    (split; [lia|]); (split; [intros r Hr; simpl in Hr; intuition (subst; auto)|]);
    intros r0 r1 H; try discriminate H.
  injection H as <- <-. split; reflexivity.
Qed.

(** X17: after a cycle that returns, the second row of the frame is the first
    with its two ends exchanged, the addresses as well as the coordinates: the
    return leg resolves no address of its own.  At most two rows are
    returned, and when there are two they are these rows, outbound first. *)
Theorem run_return_leg_swapped (self : scraper) (w : world) (f f' : frame)
        (rows : list row) :
  run self w f = (Ret rows, f') ->
  (arrive_add (row1 f'), arrive_lat (row1 f'), arrive_lon (row1 f'))
    = (depart_add (row0 f'), depart_lat (row0 f'), depart_lon (row0 f'))
  /\ (depart_add (row1 f'), depart_lat (row1 f'), depart_lon (row1 f'))
    = (arrive_add (row0 f'), arrive_lat (row0 f'), arrive_lon (row0 f'))
  /\ (List.length rows <= 2)%nat
  /\ (forall r0 r1, rows = [r0; r1] -> r0 = row0 f' /\ r1 = row1 f').
Proof.
  intro H.
  destruct (run_Ret_places self w f f' rows H)
    as (a & d & rest & add_a & add_d & _ & _ & _ & A0 & D0 & A1 & D1 & _).
  destruct (full_rows_cases f' rows (TripFacts.run_Ret self w f H)) as (Hl & _ & H2).
  split; [congruence|]. split; [congruence|]. split; assumption.
Qed.

Lemma run_return_leg_swapped_witness :
  let f' := snd (run ms world_full timesdf) in
  (arrive_add (row1 f'), arrive_lat (row1 f'), arrive_lon (row1 f'))
    = (depart_add (row0 f'), depart_lat (row0 f'), depart_lon (row0 f'))
  /\ (depart_add (row1 f'), depart_lat (row1 f'), depart_lon (row1 f'))
    = (arrive_add (row0 f'), arrive_lat (row0 f'), arrive_lon (row0 f')).
Proof.
  intro f'.
  assert (E : run ms world_full timesdf = (Ret [row0 f'; row1 f'], f'))
    by (vm_compute; reflexivity).
  destruct (run_return_leg_swapped ms world_full timesdf f' _ E) as (H1 & H2 & _).
  split; assumption.
Defined.

(** X18: both ends of every row that a cycle returns are coordinates that
    pass the membership test of the instance. *)
Theorem run_rows_in_sf (self : scraper) (w : world) (f f' : frame) (rows : list row) :
  run self w f = (Ret rows, f') ->
  Forall (fun r =>
            exists a d,
              (arrive_lat r, arrive_lon r) = (Some (fst a), Some (snd a))
              /\ (depart_lat r, depart_lon r) = (Some (fst d), Some (snd d))
              /\ in_sf (sfPath self) a = true /\ in_sf (sfPath self) d = true) rows.
Proof.
  intro H.
  destruct (run_Ret_places self w f f' rows H)
    as (a & d & rest & add_a & add_d & Hs & _ & _ & A0 & D0 & A1 & D1 & _).
  destruct (full_rows_cases f' rows (TripFacts.run_Ret self w f H)) as (_ & Hin & _).
  assert (Ha : in_sf (sfPath self) a = true /\ in_sf (sfPath self) d = true).
  { unfold sample_locations in Hs.
    destruct (sample_sf (sfPath self) (lims self) (rnd w)) as [[q1 mid]| |] eqn:E1;
      try discriminate. simpl in Hs.
    destruct (sample_sf (sfPath self) (lims self) mid) as [[q2 rest']| |] eqn:E2;
      try discriminate. simpl in Hs. injection Hs as <- <- <-.
    destruct (@GeoFacts.sample_sf_accepted (sfPath self) (lims self) (rnd w) _ (le_n _) _ _ E1)
      as [H1 _].
    destruct (@GeoFacts.sample_sf_accepted (sfPath self) (lims self) mid _ (le_n _) _ _ E2)
      as [H2 _].
    unfold in_sf. rewrite H1, H2. split; reflexivity. }
  destruct Ha as [Ha Hd].
  apply Forall_forall. intros r Hr. destruct (Hin r Hr) as [-> | ->].
  - exists a, d. injection A0 as _ -> ->. injection D0 as _ -> ->. auto.
  - exists d, a. injection A1 as _ -> ->. injection D1 as _ -> ->. auto.
Qed.

Lemma run_rows_in_sf_witness :
  Forall (fun r =>
            exists a d,
              (arrive_lat r, arrive_lon r) = (Some (fst a), Some (snd a))
              /\ (depart_lat r, depart_lon r) = (Some (fst d), Some (snd d))
              /\ in_sf (sfPath ms) a = true /\ in_sf (sfPath ms) d = true)
         [row0 (snd (run ms world_full timesdf)); row1 (snd (run ms world_full timesdf))].
Proof.
  apply (run_rows_in_sf ms world_full timesdf (snd (run ms world_full timesdf))).
  vm_compute. reflexivity.
Defined.

(** *** The durations of the two rows *)

(** A dict that [get_times] returns is the dict of one of its passes. *)
Lemma get_times_loop_from_pass (wait : Z) (attempts : list (page * Z)) :
  forall gtt wttm gt,
    get_times_loop wait gtt wttm attempts = Ret gt ->
    gt = gtt \/ exists pg d, get_traveltimes pg = Ret d /\ gt = Some d.
Proof.
  induction attempts as [|[pg us] attempts IH]; intros gtt wttm gt;
    rewrite TripFacts.get_times_loop_eq;
    destruct (negb (truthy gtt) && (wttm <=? wait));
    try discriminate; try (intro H; injection H as <-; left; reflexivity).
  destruct (get_traveltimes pg) as [d| |] eqn:E; try discriminate.
  - intro H. destruct (IH _ _ _ H) as [-> | Hp]; [|right; exact Hp].
    right. exists pg, d. split; [exact E | reflexivity].
  - apply IH.
Qed.

(** The minutes in a dict that [get_times] returns are at most 639. *)
Lemma get_times_minutes (wait : Z) (attempts : list (page * Z)) (d : dict) :
  get_times wait attempts = Ret (Some d) ->
  forall key n, In (key, Some n) d -> 0 <= n <= 639.
Proof.
  intros H key n Hin.
  destruct (get_times_loop_from_pass _ _ _ _ _ H) as [Hn | (pg & d' & Hp & Hd)];
    [discriminate|].
  injection Hd as <-.
  destruct (get_traveltimes_shape pg d Hp) as [_ Hv].
  destruct (Hv key (Some n) Hin) as (text & _ & Ht).
  destruct text as [|t0 text]; [discriminate|].
  destruct Ht as (m & Hm & Hs). injection Hs as ->.
  exact (ParseFacts.parse_times_bound t0 _ Hm).
Qed.

(** A cell after the items of a dict have been stored: what it held before,
    or a value of the dict for its key; the latter when the dict has the
    key. *)
Lemma stored_cell_cases (k : dir_key) (d : dict) :
  forall old,
    stored_cell k d old = old
    \/ exists v, In (k, v) d /\ stored_cell k d old = v.
Proof.
  induction d as [|[k' v'] d IH]; intro old; simpl.
  - left. reflexivity.
  - destruct (dir_key_eqb k k') eqn:E.
    + assert (k = k') by (destruct k, k'; (reflexivity || discriminate)). subst k'.
      destruct (IH v') as [H | (v & Hin & H)].
      * right. exists v'. split; [left; reflexivity | exact H].
      * right. exists v. split; [right; exact Hin | exact H].
    + destruct (IH old) as [H | (v & Hin & H)].
      * left. exact H.
      * right. exists v. split; [right; exact Hin | exact H].
Qed.

Lemma stored_cell_from_dict (k : dir_key) (d : dict) (old : option Z) :
  In k (map fst d) -> exists v, In (k, v) d /\ stored_cell k d old = v.
Proof.
  intro Hk.
  destruct (stored_cell_cases k d None) as [H | (v & Hin & H)].
  - apply in_map_iff in Hk. destruct Hk as ([k0 v0] & Hfst & Hin). simpl in Hfst. subst k0.
    revert H Hin. clear. revert old.
    induction d as [|[k' v'] d IH]; intros old H Hin; [destruct Hin|].
    simpl in *. destruct (dir_key_eqb k k') eqn:E.
    + assert (k = k') by (destruct k, k'; (reflexivity || discriminate)). subst k'.
      destruct (stored_cell_cases k d v') as [H' | (v & Hv & H')].
      * exists v'. split; [left; reflexivity | exact H'].
      * exists v. split; [right; exact Hv | exact H'].
    + destruct Hin as [Hin | Hin]; [injection Hin as -> _; destruct k; discriminate|].
      destruct (IH old H Hin) as (v & Hv & H').
      exists v. split; [right; exact Hv | exact H'].
  - exists v. split; [exact Hin|].
    rewrite (TripFacts.stored_cell_written k d Hk old None). exact H.
Qed.

Lemma store_times_dict_0 (gt : option dict) (f : frame) :
  store_times 0 gt f
  = (Ret tt,
     mkFrame (stored_row (match gt with Some d => d | None => [] end) (row0 f)) (row1 f)).
Proof.
  unfold store_times. destruct gt as [[|kv d]|]; cbn [truthy].
  - rewrite stored_row_nil. destruct f; reflexivity.
  - apply TripFacts.for_each_store_0.
  - rewrite stored_row_nil. destruct f; reflexivity.
Qed.

Lemma store_times_dict_1 (gt : option dict) (f : frame) :
  store_times 1 gt f
  = (Ret tt,
     mkFrame (row0 f) (stored_row (match gt with Some d => d | None => [] end) (row1 f))).
Proof.
  unfold store_times. destruct gt as [[|kv d]|]; cbn [truthy].
  - rewrite stored_row_nil. destruct f; reflexivity.
  - apply TripFacts.for_each_store_1.
  - rewrite stored_row_nil. destruct f; reflexivity.
Qed.

(** The four durations of each row after a cycle that returned: the cells of
    the frame before the cycle with the dict of [get_times] stored over
    them. *)
Lemma run_Ret_times (self : scraper) (w : world) (f f' : frame) (rows : list row) :
  run self w f = (Ret rows, f') ->
  exists gt1 gt2,
    get_times (wait_time self) (pages_out w) = Ret gt1
    /\ get_times (wait_time self) (pages_back w) = Ret gt2
    /\ (forall k col,
          In (k, col) [(k_driving, driving); (k_transit, transit); (k_walk, walk);
                       (k_bicycle, bicycle)] ->
          col (row0 f')
          = stored_cell k (match gt1 with Some d => d | None => [] end) (col (row0 f))
          /\ col (row1 f')
             = stored_cell k (match gt2 with Some d => d | None => [] end) (col (row1 f))).
Proof.
  unfold run. TripFacts.run_writes.
  destruct (sample_locations (sfPath self) (lims self) (rnd w)) as [[[p1 p2] rest]| |]
    eqn:Es; try discriminate.
  TripFacts.run_writes.
  destruct (get_address w p1) as [a1| |] eqn:E1; try discriminate.
  TripFacts.run_writes.
  destruct (get_address w p2) as [a2| |] eqn:E2; try discriminate.
  TripFacts.run_writes.
  destruct (searchboxes w) as [[]| |]; try discriminate.
  destruct (get_times (wait_time self) (pages_out w)) as [gt1| |]; try discriminate.
  TripFacts.run_writes.
  rewrite (TripFacts.bind_step _ _ _ (store_times_dict_0 gt1 _)).
  TripFacts.run_writes.
  destruct (reverse_icon w) as [[]| |]; try discriminate.
  destruct (get_times (wait_time self) (pages_back w)) as [gt2| |]; try discriminate.
  TripFacts.run_writes.
  rewrite (TripFacts.bind_step _ _ _ (store_times_dict_1 gt2 _)).
  intro H. injection H as _ <-.
  exists gt1, gt2. split; [reflexivity|]. split; [reflexivity|].
  intros k col [H | [H | [H | [H | []]]]]; injection H as <- <-; split; reflexivity.
Qed.

End CycleFacts.

(** ** More on the recorder *)

Module RecorderFacts.

Import Geo Trip Db Scenarios Samples.
Open Scope list_scope.
Open Scope Z_scope.

(** *** Which rows pass the checks *)

Lemma checked_index (idx : nat) (c : pyclass) :
  nth_error checked idx = Some c ->
  (In idx [0; 4; 10]%nat /\ c = c_object)
  \/ (In idx [1; 2; 5; 6]%nat /\ c = c_float)
  \/ (In idx [3; 7; 8; 9]%nat /\ c = c_int).
Proof.
  unfold checked.
  do 11 (destruct idx as [|idx];
         [simpl; intro H; injection H as <-; simpl; tauto|]).
  destruct idx; discriminate.
Qed.

(** X19: a row passes the checks exactly when it has at least eleven values,
    those at the positions of the coordinates (1, 2, 5, 6) are floats and
    those at the positions of the durations (3, 7, 8, 9) are integers or
    booleans.  An integer for a coordinate and [None] for a duration are
    rejected; the positions of the texts take any value. *)
Theorem check_passed_shape (data : tuple) :
  check data = Passed <->
  (11 <= List.length data)%nat
  /\ (forall idx, In idx [1; 2; 5; 6]%nat ->
        exists q, nth_error data idx = Some (PyFloat q))
  /\ (forall idx, In idx [3; 7; 8; 9]%nat ->
        (exists z, nth_error data idx = Some (PyInt z))
        \/ (exists b, nth_error data idx = Some (PyBool b))).
Proof.
  rewrite DbFacts.check_passed_iff. split.
  - intro H. split; [|split].
    + destruct (H 10%nat c_object eq_refl) as (v & Hv & _).
      assert (Hn : nth_error data 10 <> None) by congruence.
      apply nth_error_Some in Hn. lia.
    + intros idx Hin.
      assert (Hc : nth_error checked idx = Some c_float)
        by (simpl in Hin; intuition (subst; reflexivity)).
      destruct (H idx c_float Hc) as (v & Hv & Hi).
      destruct v; try discriminate Hi. eauto.
    + intros idx Hin.
      assert (Hc : nth_error checked idx = Some c_int)
        by (simpl in Hin; intuition (subst; reflexivity)).
      destruct (H idx c_int Hc) as (v & Hv & Hi).
      destruct v; try discriminate Hi; eauto.
  - intros (Hlen & Hf & Hi) idx c Hc.
    destruct (checked_index idx c Hc) as [[Hin ->] | [[Hin ->] | [Hin ->]]].
    + destruct (nth_error data idx) as [v|] eqn:E.
      * exists v. split; [reflexivity | apply DbFacts.isinstance_object].
      * apply nth_error_None in E. simpl in Hin. lia.
    + destruct (Hf idx Hin) as [q Hq]. exists (PyFloat q). auto.
    + destruct (Hi idx Hin) as [[z Hz] | [b Hb]]; eexists; split; eauto.
Qed.

Lemma check_passed_shape_witness :
  check bool_time_row = Passed /\ check int_lat_row <> Passed.
Proof.
  split.
  - apply (proj2 (check_passed_shape bool_time_row)).
    split; [simpl; lia|]. split.
    + intros idx [<- | [<- | [<- | [<- | []]]]]; simpl; eauto.
    + intros idx [<- | [<- | [<- | [<- | []]]]]; simpl; eauto.
  - intro H. apply (proj1 (check_passed_shape int_lat_row)) in H.
    destruct H as (_ & Hf & _). destruct (Hf 1%nat) as [q Hq].
    + left. reflexivity.
    + discriminate Hq.
Defined.

(** X20: a row is left with [IndexError] exactly when it has fewer than
    eleven values and each value it has passes its check; [record] then
    changes nothing.  A short row with a value that fails its check is
    rejected as any other, by ["failed!"]. *)
Theorem check_missing_short (d : database) (data : tuple) :
  (check data = Missing <->
   (List.length data < 11)%nat
   /\ forall idx v c, nth_error data idx = Some v -> nth_error checked idx = Some c ->
                      isinstance v c = true)
  /\ (check data = Missing -> record d data = (Raise IndexError, d)).
Proof.
  split.
  - split.
    + intro H. split.
      * destruct (le_lt_dec 11 (List.length data)) as [Hge | Hlt]; [|exact Hlt].
        exfalso. revert H. unfold check, checked.
        do 11 (destruct data as [|? data]; [simpl in Hge; lia|]).
        cbn -[isinstance].
        repeat match goal with
               | |- context [isinstance ?v ?c] =>
                   destruct (isinstance v c); cbn -[isinstance]
               end; discriminate.
      * intros idx v c Hv Hc.
        destruct (isinstance v c) eqn:Hi; [reflexivity|].
        unfold check in H.
        rewrite (DbFacts.check_from_failed checked data 0 idx Hv Hc Hi) in H.
        discriminate.
    + intros [Hlt Hall].
      destruct (check data) eqn:E; [| |reflexivity]; exfalso.
      * pose proof (proj1 (DbFacts.check_passed_iff data) E) as E'.
        destruct (E' 10%nat c_object eq_refl) as (v & Hv & _).
        assert (Hn : nth_error data 10 <> None) by congruence.
        apply nth_error_Some in Hn. lia.
      * destruct (DbFacts.check_from_failed_inv checked data 0 E)
          as (i & v & c & Hv & Hc & Hf).
        simpl in Hv. rewrite (Hall i v c Hv Hc) in Hf. discriminate.
  - intro H. unfold record. rewrite H. reflexivity.
Qed.

Lemma check_missing_short_witness :
  record (open 100) short_row = (Raise IndexError, open 100).
Proof.
  apply (proj2 (check_missing_short (open 100) short_row)).
  reflexivity.
Defined.

(** *** Rows in, rows kept *)

Lemma check_full_length (data : tuple) :
  List.length data = 11%nat -> check data <> Missing.
Proof.
  unfold check, checked.
  do 11 (destruct data as [|? data]; [discriminate|]).
  intros _. cbn -[isinstance].
  repeat match goal with
         | |- context [isinstance ?v ?c] =>
             destruct (isinstance v c); cbn -[isinstance]
         end; discriminate.
Qed.

Lemma binds_length (data : tuple) :
  binds data = true -> List.length data = 11%nat.
Proof.
  unfold binds, bind_error.
  destruct (Nat.eqb (List.length data) (List.length fields)) eqn:E; simpl.
  - intros _. apply Nat.eqb_eq in E. exact E.
  - discriminate.
Qed.

(** One call on a row of eleven values that can be stored, whatever the
    threshold. *)
Lemma record_full_length (d : database) (data : tuple) :
  binds data = true ->
  forallb binds (data_buffer d) = true ->
  exists d',
    record d data = (Ret PyNone, d')
    /\ buffer_size d' = buffer_size d
    /\ forallb binds (data_buffer d') = true
    /\ match check data with
       | Passed =>
           List.concat (commits d') ++ data_buffer d'
             = List.concat (commits d) ++ data_buffer d ++ [data]
           /\ stdout d' = stdout d
       | _ =>
           commits d' = commits d /\ data_buffer d' = data_buffer d
           /\ stdout d' = stdout d ++ ["failed!"%string]
       end.
Proof.
  intros Hbind Hb.
  assert (Hb' : forallb binds (data_buffer d ++ [data]) = true).
  { rewrite forallb_app, Hb. simpl. rewrite Hbind. reflexivity. }
  destruct (check data) eqn:E.
  - destruct (Z_lt_le_dec (Z.of_nat (List.length (data_buffer d)) + 1) (buffer_size d))
      as [Hlt | Hge].
    + rewrite (@DbFacts.record_below d data E Hlt).
      eexists. split; [reflexivity|]. simpl.
      split; [reflexivity|]. split; [exact Hb'|].
      split; reflexivity.
    + rewrite (@DbFacts.record_reached d data E Hge Hb').
      eexists. split; [reflexivity|]. simpl.
      split; [reflexivity|]. split; [reflexivity|].
      split; [|reflexivity].
      rewrite concat_app. simpl. rewrite !app_nil_r. reflexivity.
  - rewrite (@DbFacts.record_failed d data E).
    eexists. split; [reflexivity|]. simpl. auto.
  - destruct (check_full_length data (binds_length data Hbind) E).
Qed.

Lemma record_all_keeps (rows : list tuple) :
  Forall (fun r => binds r = true) rows ->
  forall d,
    forallb binds (data_buffer d) = true ->
    exists d',
      record_all d rows = (Ret tt, d')
      /\ buffer_size d' = buffer_size d
      /\ forallb binds (data_buffer d') = true
      /\ List.concat (commits d') ++ data_buffer d'
         = List.concat (commits d) ++ data_buffer d
           ++ filter (fun r => match check r with Passed => true | _ => false end) rows
      /\ stdout d'
         = stdout d
           ++ repeat "failed!"%string
                (List.length
                   (filter (fun r => match check r with Passed => false | _ => true end)
                           rows)).
Proof.
  induction 1 as [|data rows Hlen _ IH]; intros d Hb.
  - exists d. simpl. rewrite !app_nil_r. auto.
  - destruct (record_full_length d data Hlen Hb) as (d1 & E1 & B1 & Hb1 & Hc).
    destruct (IH d1 Hb1) as (d' & E & B & Hb' & Hcat & Hout).
    exists d'. simpl. rewrite E1, E.
    split; [reflexivity|]. split; [congruence|]. split; [exact Hb'|].
    destruct (check data); simpl.
    + destruct Hc as [Hc Ho]. rewrite Hcat, Hout, Ho.
      split; [|reflexivity].
      rewrite app_assoc, Hc, <- !app_assoc. reflexivity.
    + destruct Hc as (Hc & Hd & Ho). rewrite Hcat, Hout, Hc, Hd, Ho.
      split; [reflexivity|]. rewrite <- app_assoc. reflexivity.
    + destruct Hc as (Hc & Hd & Ho). rewrite Hcat, Hout, Hc, Hd, Ho.
      split; [reflexivity|]. rewrite <- app_assoc. reflexivity.
Qed.

(** X21: no row is lost, repeated or reordered.  The rows are rows of exactly
    eleven values in which every integer fits in 64 bits, the rows that
    sqlite3 can insert, and so are the rows already in the buffer.  After any
    sequence of such rows, for any threshold, the rows committed followed by
    the rows in the buffer are what they were before followed by the rows
    that pass the checks, in the order of the calls; ["failed!"] is printed
    once for each other row, and no call raises. *)
Theorem record_all_keeps_accepted_rows (d : database) (rows : list tuple) :
  Forall (fun r => binds r = true) rows ->
  forallb binds (data_buffer d) = true ->
  exists d',
    record_all d rows = (Ret tt, d')
    /\ List.concat (commits d') ++ data_buffer d'
       = List.concat (commits d) ++ data_buffer d
         ++ filter (fun r => match check r with Passed => true | _ => false end) rows
    /\ stdout d'
       = stdout d
         ++ repeat "failed!"%string
              (List.length
                 (filter (fun r => match check r with Passed => false | _ => true end)
                         rows)).
Proof.
  intros Hrows Hb.
  destruct (record_all_keeps rows Hrows d Hb) as (d' & E & _ & _ & Hc & Ho).
  exists d'. auto.
Qed.

Lemma record_all_keeps_accepted_rows_witness :
  exists d',
    record_all (open 2) [good_row; bad_row; bool_time_row; int_lat_row; good_row]
      = (Ret tt, d')
    /\ List.concat (commits d') ++ data_buffer d' = [good_row; bool_time_row; good_row]
    /\ stdout d' = ["failed!"%string; "failed!"%string].
Proof.
  destruct (record_all_keeps_accepted_rows (open 2)
              [good_row; bad_row; bool_time_row; int_lat_row; good_row])
    as (d' & E & Hc & Ho).
  - repeat constructor.
  - reflexivity.
  - exists d'. split; [exact E|]. split; [exact Hc | exact Ho].
Defined.

(** *** What is committed stays *)

Lemma record_commits_grow (d : database) (data : tuple) :
  exists batches,
    commits (snd (record d data)) = commits d ++ batches
    /\ buffer_size (snd (record d data)) = buffer_size d
    /\ (batches = [] \/ batches = [data_buffer d ++ [data]]).
Proof.
  unfold record. destruct (check data).
  - simpl. destruct (_ >=? _).
    + unfold flush. simpl. destruct (executemany (data_buffer d ++ [data])) as [[]| |]; simpl.
      * exists [data_buffer d ++ [data]]. auto.
      * exists []. rewrite app_nil_r. auto.
      * exists []. rewrite app_nil_r. auto.
    + simpl. exists []. rewrite app_nil_r. auto.
  - simpl. exists []. rewrite app_nil_r. auto.
  - simpl. exists []. rewrite app_nil_r. auto.
Qed.

(** X22: whatever the rows and however the calls end, by a return or by an
    exception, the batches committed before are still there, unchanged and
    first, and the threshold is the same: a call adds at most one batch, the
    buffer with the new row, and removes none. *)
Theorem record_all_commits_grow (rows : list tuple) (d : database) :
  (exists batches,
     commits (snd (record_all d rows)) = commits d ++ batches
     /\ (List.length batches <= List.length rows)%nat)
  /\ buffer_size (snd (record_all d rows)) = buffer_size d.
Proof.
  revert d. induction rows as [|data rows IH]; intro d.
  - simpl. split; [exists []; rewrite app_nil_r; auto | reflexivity].
  - destruct (record_commits_grow d data) as (b1 & Hc1 & Hs1 & Hb1).
    assert (Hl1 : (List.length b1 <= 1)%nat) by (destruct Hb1; subst; simpl; lia).
    simpl. destruct (record d data) as [[v| e |] d1]; simpl in *.
    + destruct (IH d1) as [(b & Hc & Hl) Hs]. split; [|congruence].
      exists (b1 ++ b). rewrite Hc, Hc1, <- app_assoc, length_app.
      split; [reflexivity | lia].
    + split; [|exact Hs1]. exists b1. split; [exact Hc1 | lia].
    + split; [|exact Hs1]. exists b1. split; [exact Hc1 | lia].
Qed.

(** *** From a cycle to the table *)

Lemma filter_all {A} (p : A -> bool) (l : list A) :
  Forall (fun a => p a = true) l -> filter p l = l.
Proof.
  induction 1 as [|a l Ha _ IH]; simpl; [reflexivity|].
  rewrite Ha, IH. reflexivity.
Qed.

Lemma filter_none {A} (p : A -> bool) (l : list A) :
  Forall (fun a => p a = false) l -> filter p l = [].
Proof.
  induction 1 as [|a l Ha _ IH]; simpl; [reflexivity|].
  rewrite Ha, IH. reflexivity.
Qed.

(** The values of a row of the frame can be stored when its four durations
    can. *)
Lemma storable_values (r : row) :
  forallb storable (values r) = true
  <-> forall k col,
        In (k, col) [(k_driving, driving); (k_transit, transit); (k_walk, walk);
                     (k_bicycle, bicycle)] ->
        storable (cell PyInt (col r)) = true.
Proof.
  destruct r as [[?|] [?|] [?|] bi [?|] [?|] [?|] dr tr wk [?|]];
    unfold values; cbn -[storable cell];
    change (storable (cell PyStr (Some ?x))) with true;
    change (storable (cell PyFloat (Some ?x))) with true;
    change (storable (cell PyStr None)) with true;
    change (storable (cell PyFloat None)) with true;
    cbn [andb]; rewrite ?andb_true_r, !andb_true_iff;
    (split;
     [ intros (Hbi & Hdr & Htr & Hwk) k col [H | [H | [H | [H | []]]]];
       injection H as <- <-; assumption
     | intro H; repeat split;
       [ apply (H k_bicycle bicycle) | apply (H k_driving driving)
       | apply (H k_transit transit) | apply (H k_walk walk) ];
       simpl; tauto ]).
Qed.

Lemma minutes_storable (n : Z) : 0 <= n <= 639 -> storable (PyInt n) = true.
Proof.
  intro H. unfold storable. apply andb_true_iff.
  assert (E : 2 ^ 63 = 9223372036854775808) by reflexivity. rewrite E.
  split; [apply Z.leb_le | apply Z.ltb_lt]; lia.
Qed.

(** A duration cell after [store_times] can be stored when the minutes of the
    dict are minutes that [parse_times] returns and the cell either is
    written by the dict or could be stored before. *)
Lemma stored_cell_storable (k : dir_key) (d : dict) (old : option Z) :
  (forall key n, In (key, Some n) d -> 0 <= n <= 639) ->
  In k (map fst d) \/ storable (cell PyInt old) = true ->
  storable (cell PyInt (stored_cell k d old)) = true.
Proof.
  intros Hd [Hk | Ho].
  - destruct (CycleFacts.stored_cell_from_dict k d old Hk) as (v & Hin & ->).
    destruct v as [n|]; [|reflexivity].
    apply minutes_storable. exact (Hd k n Hin).
  - destruct (CycleFacts.stored_cell_cases k d old) as [-> | (v & Hin & ->)];
      [exact Ho|].
    destruct v as [n|]; [|reflexivity].
    apply minutes_storable. exact (Hd k n Hin).
Qed.

(** What [get_times] returns, as the dict that [store_times] stores. *)
Lemma get_times_dict (wait : Z) (attempts : list (page * Z)) (gt : option dict) :
  get_times wait attempts = Ret gt ->
  (forall key n, In (key, Some n) (match gt with Some d => d | None => [] end) ->
                 0 <= n <= 639)
  /\ (0 <= wait ->
      forall k, In k (map fst (match gt with Some d => d | None => [] end))).
Proof.
  intro H. split.
  - destruct gt as [d|]; [|intros key n []].
    exact (CycleFacts.get_times_minutes wait attempts d H).
  - intros Hw k.
    destruct (@TripFacts.get_times_all_keys wait attempts gt Hw H) as (d & -> & Hk).
    exact (Hk k).
Qed.

(** The frame after a cycle that returned holds durations that can be
    stored, when the wait is not negative or the frame before held such
    durations. *)
Lemma run_frame_storable (self : scraper) (w : world) (f f' : frame) (rows : list row) :
  run self w f = (Ret rows, f') ->
  (wait_time self < 0 ->
   Forall (fun r => forallb storable (values r) = true) [row0 f; row1 f]) ->
  Forall (fun r => forallb storable (values r) = true) [row0 f'; row1 f'].
Proof.
  intros Hrun Hf.
  destruct (CycleFacts.run_Ret_times self w f f' rows Hrun) as (gt1 & gt2 & G1 & G2 & Hcells).
  destruct (get_times_dict _ _ _ G1) as [M1 K1].
  destruct (get_times_dict _ _ _ G2) as [M2 K2].
  assert (Hold : 0 <= wait_time self
                 \/ (forallb storable (values (row0 f)) = true
                     /\ forallb storable (values (row1 f)) = true)).
  { destruct (Z_lt_le_dec (wait_time self) 0) as [Hlt | Hge]; [right | left; exact Hge].
    specialize (Hf Hlt).
    apply Forall_cons_iff in Hf as [H0 Hf]. apply Forall_cons_iff in Hf as [H1 _].
    split; assumption. }
  constructor; [|constructor; [|constructor]]; apply storable_values; intros k col Hin;
    destruct (Hcells k col Hin) as [C0 C1].
  - rewrite C0. apply stored_cell_storable; [exact M1|].
    destruct Hold as [Hw | [H0 _]]; [left; exact (K1 Hw k) | right].
    exact (proj1 (storable_values (row0 f)) H0 k col Hin).
  - rewrite C1. apply stored_cell_storable; [exact M2|].
    destruct Hold as [Hw | [_ H1]]; [left; exact (K2 Hw k) | right].
    exact (proj1 (storable_values (row1 f)) H1 k col Hin).
Qed.

(** X23: the loop of the usage example, [for dat in np.array(ms.run()):
    gdb.record(dat)], on a recorder whose buffer holds rows that sqlite3 can
    insert.  When the wait of the instance is not negative, or when the frame
    before the cycle holds no integer beyond 64 bits, the rows that the cycle
    returns all pass the checks of the recorder and can be inserted: nothing
    is printed, nothing is raised, and the rows join the buffer or the table
    in their order.  The frame that the cycle leaves holds no integer beyond
    64 bits either, so that the same is true of the next cycle. *)
Theorem run_rows_are_recorded (self : scraper) (w : world) (f f' : frame)
        (rows : list row) (d : database) :
  run self w f = (Ret rows, f') ->
  forallb binds (data_buffer d) = true ->
  (wait_time self < 0 ->
   Forall (fun r => forallb storable (values r) = true) [row0 f; row1 f]) ->
  (exists d',
     record_all d (map values rows) = (Ret tt, d')
     /\ stdout d' = stdout d
     /\ List.concat (commits d') ++ data_buffer d'
        = List.concat (commits d) ++ data_buffer d ++ map values rows)
  /\ Forall (fun r => forallb storable (values r) = true) [row0 f'; row1 f'].
Proof.
  intros Hrun Hb Hf.
  pose proof (run_frame_storable self w f f' rows Hrun Hf) as Hf'.
  split; [|exact Hf'].
  pose proof (TripFacts.run_Ret self w f Hrun) as Hrows.
  assert (Hall : Forall (fun r => trip_record r /\ binds r = true) (map values rows)).
  { apply Forall_map. subst rows. apply Forall_forall. intros r Hr.
    unfold full_rows in Hr. apply filter_In in Hr as [Hin Hr].
    apply Nat.eqb_eq in Hr. split; [apply (TripFacts.full_row_values r Hr)|].
    assert (Hs : forallb storable (values r) = true)
      by (exact (proj1 (Forall_forall _ _) Hf' r Hin)).
    unfold binds, bind_error. rewrite Hs. reflexivity. }
  destruct (record_all_keeps (map values rows)) with (d := d)
    as (d' & E & _ & _ & Hc & Ho).
  - eapply Forall_impl; [|exact Hall]. intros r [_ Hl]. exact Hl.
  - exact Hb.
  - exists d'. split; [exact E|].
    rewrite filter_all in Hc
      by (eapply Forall_impl; [|exact Hall]; intros r [[_ Hp] _]; rewrite Hp; reflexivity).
    rewrite filter_none in Ho
      by (eapply Forall_impl; [|exact Hall]; intros r [[_ Hp] _]; rewrite Hp; reflexivity).
    simpl in Ho. rewrite app_nil_r in Ho. split; assumption.
Qed.

Lemma run_rows_are_recorded_witness :
  let f' := snd (run ms world_full timesdf) in
  (exists d',
     record_all (open 100) (map values (full_rows f')) = (Ret tt, d')
     /\ stdout d' = stdout (open 100)
     /\ List.concat (commits d') ++ data_buffer d'
        = List.concat (commits (open 100)) ++ data_buffer (open 100)
          ++ map values (full_rows f'))
  /\ Forall (fun r => forallb storable (values r) = true) [row0 f'; row1 f'].
Proof.
  intro f'.
  assert (E : run ms world_full timesdf = (Ret (full_rows f'), f'))
    by (vm_compute; reflexivity).
  assert (Hw : wait_time ms < 0 ->
               Forall (fun r => forallb storable (values r) = true)
                      [row0 timesdf; row1 timesdf])
    by (intros _; repeat constructor).
  exact (run_rows_are_recorded ms world_full timesdf f' (full_rows f') (open 100)
           E eq_refl Hw).
Defined.

End RecorderFacts.

(** ** Waiting for a duration, and the commands of the table *)

Module PollingFacts.

Import Duration Trip Polling Schema Scenarios Samples.
Open Scope list_scope.

Lemma get_cn_text_In (elements : list string) (text : string) :
  In text (get_cn_text elements) <-> In text elements /\ text <> ""%string.
Proof.
  unfold get_cn_text. rewrite filter_In. split; intros [H1 H2]; split; try exact H1.
  - intro E. subst. discriminate H2.
  - destruct (String.eqb_spec text ""); [contradiction | reflexivity].
Qed.

(** The loop from a counter [c] and a look [k], with fuel to spare. *)
Lemma wait_loop_from (dom : looks) (fuel : nat) :
  forall c k, (c <= 10)%nat -> (10 - c < fuel)%nat ->
  exists sleeps,
    (sleeps <= 10 - c)%nat
    /\ (forall j, (j < sleeps)%nat -> get_cn_text (dom (k + j)%nat) = [])
    /\ ((c + sleeps < 10)%nat /\ get_cn_text (dom (k + sleeps)%nat) <> []
        /\ wait_loop dom fuel c k = Ret ((c + sleeps)%nat, (k + sleeps + 1)%nat)
        \/ (c + sleeps = 10)%nat
           /\ wait_loop dom fuel c k = Ret (10%nat, (k + sleeps)%nat)).
Proof.
  induction fuel as [|fuel IH]; intros c k Hc Hf; [lia|].
  change (wait_loop dom (S fuel) c k)
    with (if (c <? 10)%nat then
            if (List.length (get_cn_text (dom k)) <? 1)%nat
            then wait_loop dom fuel (S c) (S k)
            else Ret (c, S k)
          else Ret (c, k)).
  destruct (Nat.ltb_spec c 10) as [Hlt | Hge].
  - destruct (Nat.ltb_spec (List.length (get_cn_text (dom k))) 1) as [He | Hne].
    + assert (E : get_cn_text (dom k) = [])
        by (destruct (get_cn_text (dom k)); [reflexivity | simpl in He; lia]).
      destruct (IH (S c) (S k)) as (s & Hs & Hempty & Hend); [lia | lia |].
      exists (S s). split; [lia|]. split.
      * intros [|j] Hj; [rewrite Nat.add_0_r; exact E|].
        replace (k + S j)%nat with (S k + j)%nat by lia. apply Hempty. lia.
      * replace (k + S s)%nat with (S k + s)%nat by lia.
        replace (c + S s)%nat with (S c + s)%nat by lia.
        destruct Hend as [(H1 & H2 & H3) | (H1 & H2)]; [left | right]; auto.
    + exists 0%nat. split; [lia|]. split; [intros j Hj; lia|].
      left. rewrite !Nat.add_0_r.
      split; [lia|]. split.
      * intro E. rewrite E in Hne. simpl in Hne. lia.
      * f_equal. f_equal. lia.
  - exists 0%nat. split; [lia|]. split; [intros j Hj; lia|].
    right. rewrite !Nat.add_0_r. assert (c = 10%nat) by lia. subst. auto.
Qed.

(** X24: the wait for a duration ends on its own: after at most ten sleeps,
    at the first look that shows a text that is not empty, or when the counter
    reaches ten.  The text then used is read by one more look, and it holds no
    empty text. *)
Theorem read_text_waits_ten_times (dom : looks) :
  exists sleeps,
    (sleeps <= 10)%nat
    /\ (forall j, (j < sleeps)%nat -> get_cn_text (dom j) = [])
    /\ (sleeps < 10 -> get_cn_text (dom sleeps) <> [])%nat
    /\ read_text dom 11
       = Ret (get_cn_text (dom (if (sleeps <? 10)%nat then S sleeps else sleeps)))
    /\ forall text,
         read_text dom 11 = Ret text -> Forall (fun t => t <> ""%string) text.
Proof.
  destruct (wait_loop_from dom 11 0 0) as (s & Hs & Hempty & Hend); [lia | lia |].
  exists s. cbn [Nat.add Nat.sub] in *. split; [lia|]. split; [exact Hempty|].
  assert (Hread : read_text dom 11
                  = Ret (get_cn_text (dom (if (s <? 10)%nat then S s else s)))).
  { unfold read_text.
    destruct Hend as [(H1 & H2 & H3) | (H1 & H3)]; rewrite H3; simpl.
    - destruct (Nat.ltb_spec s 10); [|lia].
      replace (s + 1)%nat with (S s) by lia. reflexivity.
    - destruct (Nat.ltb_spec s 10); [lia | reflexivity]. }
  split.
  - intro Hlt. destruct Hend as [(H1 & H2 & H3) | (H1 & H3)]; [exact H2 | lia].
  - split; [exact Hread|].
    intros text Ht. rewrite Hread in Ht. injection Ht as <-.
    apply Forall_forall. intros t Hin. apply get_cn_text_In in Hin. apply Hin.
Qed.

Lemma read_text_waits_ten_times_witness :
  exists text,
    read_text dom_slow 11 = Ret text /\ Forall (fun t => t <> ""%string) text.
Proof.
  destruct (read_text_waits_ten_times dom_slow) as (sleeps & _ & _ & _ & Hread & Hall).
  exists (get_cn_text (dom_slow (if (sleeps <? 10)%nat then S sleeps else sleeps))).
  split; [exact Hread | exact (Hall _ Hread)].
Defined.

(** *** The commands *)

Lemma count_char_app (c : ascii) (s t : string) :
  count_char c (s ++ t) = (count_char c s + count_char c t)%nat.
Proof.
  induction s as [|a s IH]; simpl; [reflexivity|]. rewrite IH. lia.
Qed.

Lemma count_placeholders (n : nat) :
  count_char "?" (join ", " (repeat "?"%string n)) = n.
Proof.
  induction n as [|n IH]; [reflexivity|].
  destruct n as [|n]; [reflexivity|].
  change (join ", " (repeat "?"%string (S (S n))))
    with ("?" ++ ", " ++ join ", " (repeat "?"%string (S n)))%string.
  rewrite !count_char_app, IH. reflexivity.
Qed.

(** X25: whatever the names of the fields, the insert command that
    [__init__] builds holds one placeholder for each of them; for the fields
    of the class that is the number of values that [record] checks. *)
Theorem insert_cmd_placeholders (names : list string) :
  count_char "?" (insert_cmd names) = List.length names
  /\ count_char "?" (insert_cmd Db.fields) = List.length Db.checked.
Proof.
  assert (H : forall l, count_char "?" (insert_cmd l) = List.length l).
  { intro l. unfold insert_cmd. rewrite !count_char_app, count_placeholders.
    simpl. lia. }
  split; [apply H | rewrite H; reflexivity].
Qed.

End PollingFacts.
